(** * ESP32-Watchdog: the liveness registry of Watchdog.cpp / Watchdog.h

    A shallow embedding of the [Watchdog] class: the registry fields, the
    vector of [TaskInfo] entries, and the operations [init], [deinit],
    [registerCurrentTask], [unregisterCurrentTask], [unregisterTaskByHandle],
    [feed], [getRegisteredTaskCount], [getTaskInfo] and [checkHealth].

    The C++ methods mutate the singleton and call into FreeRTOS and the
    ESP-IDF task watchdog (TWDT).  Here every method is a computation in a
    small state monad over a [World]: the registry object together with the
    trace of the externally visible things the method did, in program order
    (mutex take/give, stores to registry fields, TWDT calls).  What FreeRTOS
    and ESP-IDF answer is not decided by this repository, so it is an input:
    the [Env] of a call. *)

From stdpp Require Import base numbers list strings.
From Stdlib Require Import ZArith Lia.

Open Scope Z_scope.

(** ** Machine integers *)

(** [uint32_t] and [TickType_t] values are integers in [0, 2^32); the
    arithmetic of the source wraps. *)
Definition UINT32_MAX : Z := 4294967295.

Definition u32 (x : Z) : Z := x `mod` 4294967296.

Definition is_u32 (x : Z) : Prop := 0 ≤ x ≤ UINT32_MAX.

(** ** ESP-IDF error codes (esp_err.h) *)

Definition ESP_OK : Z := 0.
Definition ESP_FAIL : Z := -1.
Definition ESP_ERR_INVALID_STATE : Z := 259. (* 0x103 *)
Definition ESP_ERR_NOT_FOUND : Z := 261.     (* 0x105 *)

(** ** Data model *)

(** [TaskHandle_t] is a pointer; [NULL] is 0. *)
Definition TaskHandle_t := Z.
Definition NULL : TaskHandle_t := 0.

(** [struct Watchdog::TaskInfo]. *)
Record TaskInfo := mkTaskInfo {
  handle : TaskHandle_t;
  name : string;
  lastFeedTime : Z;
  feedIntervalMs : Z;
  missedFeeds : Z;
  isCritical : bool
}.

(** The private members of [class Watchdog]; the mutex itself is part of the
    environment. *)
Record Watchdog := mkWatchdog {
  initialized_ : bool;
  timeoutMs_ : Z;
  panicOnTimeout_ : bool;
  registeredTasks_ : list TaskInfo
}.

Definition DEFAULT_TIMEOUT_MS : Z := 30000.
Definition MIN_TIMEOUT_MS : Z := 1000.

(** ** Observable events *)

Inductive Field := FInitialized | FTimeoutMs | FPanicOnTimeout | FRegisteredTasks.

Inductive Wait := WaitTicks10ms | WaitMaxDelay.

Inductive WdtCall :=
| WdtInit (timeout : Z) (panic : bool)
| WdtStatus (h : TaskHandle_t)
| WdtAdd (h : TaskHandle_t)
| WdtDelete (h : TaskHandle_t)
| WdtReset (caller : TaskHandle_t).

(** [SemTake wait ok]: [xSemaphoreTake(taskListMutex_, wait)] returned
    [pdTRUE] ([ok]) or not; [SemGive]: [xSemaphoreGive(taskListMutex_)];
    [Store f]: a member of the registry was written; [Wdt c]: a call into the
    ESP-IDF task watchdog. *)
Inductive Event :=
| SemTake (wait : Wait) (ok : bool)
| SemGive
| Store (f : Field)
| Wdt (c : WdtCall).

Record World := mkWorld {
  self : Watchdog;
  trace : list Event
}.

(** What the platform answers during one call of a method. *)
Record Env := mkEnv {
  xTaskGetCurrentTaskHandle : TaskHandle_t;
  xTaskGetTickCount : Z;
  xSemaphoreTake_ok : bool;
  esp_task_wdt_init_result : Z;
  esp_task_wdt_status_result : TaskHandle_t → Z;
  esp_task_wdt_add_result : TaskHandle_t → Z;
  esp_task_wdt_delete_result : TaskHandle_t → Z
}.

(** ** The state monad *)

Definition M (A : Type) : Type := World → A * World.

Definition ret {A} (a : A) : M A := λ w, (a, w).

Definition bind {A B} (m : M A) (k : A → M B) : M B :=
  λ w, let r := m w in k (fst r) (snd r).

Declare Scope wd_scope.
Delimit Scope wd_scope with wd.
Notation "x ← y ; z" := (bind y (λ x : _, z))
  (at level 20, y at level 100, z at level 200, only parsing) : wd_scope.
Notation "x ;; z" := (bind x (λ _, z))
  (at level 100, z at level 200, only parsing, right associativity) : wd_scope.
Open Scope wd_scope.

Definition emit (e : Event) : M unit :=
  λ w, (tt, mkWorld (self w) (trace w ++ [e])).

Definition load {A} (proj : Watchdog → A) : M A := λ w, (proj (self w), w).

Definition store_initialized (b : bool) : M unit :=
  λ w, let s := self w in
       (tt, mkWorld (mkWatchdog b (timeoutMs_ s) (panicOnTimeout_ s) (registeredTasks_ s))
                    (trace w ++ [Store FInitialized])).

Definition store_timeoutMs (t : Z) : M unit :=
  λ w, let s := self w in
       (tt, mkWorld (mkWatchdog (initialized_ s) t (panicOnTimeout_ s) (registeredTasks_ s))
                    (trace w ++ [Store FTimeoutMs])).

Definition store_panicOnTimeout (p : bool) : M unit :=
  λ w, let s := self w in
       (tt, mkWorld (mkWatchdog (initialized_ s) (timeoutMs_ s) p (registeredTasks_ s))
                    (trace w ++ [Store FPanicOnTimeout])).

Definition with_tasks (s : Watchdog) (l : list TaskInfo) : Watchdog :=
  mkWatchdog (initialized_ s) (timeoutMs_ s) (panicOnTimeout_ s) l.

(** Any write into the vector or into one of its elements. *)
Definition store_tasks (l : list TaskInfo) : M unit :=
  λ w, (tt, mkWorld (with_tasks (self w) l) (trace w ++ [Store FRegisteredTasks])).

(** ** FreeRTOS and ESP-IDF calls *)

Definition xSemaphoreTake (env : Env) (wait : Wait) : M bool :=
  emit (SemTake wait (xSemaphoreTake_ok env)) ;; ret (xSemaphoreTake_ok env).

Definition xSemaphoreGive : M unit := emit SemGive.

Definition esp_task_wdt_status (env : Env) (h : TaskHandle_t) : M Z :=
  emit (Wdt (WdtStatus h)) ;; ret (esp_task_wdt_status_result env h).

Definition esp_task_wdt_add (env : Env) (h : TaskHandle_t) : M Z :=
  emit (Wdt (WdtAdd h)) ;; ret (esp_task_wdt_add_result env h).

Definition esp_task_wdt_delete (env : Env) (h : TaskHandle_t) : M Z :=
  emit (Wdt (WdtDelete h)) ;; ret (esp_task_wdt_delete_result env h).

(** [esp_task_wdt_reset()] acts for the calling task. *)
Definition esp_task_wdt_reset (env : Env) : M unit :=
  emit (Wdt (WdtReset (xTaskGetCurrentTaskHandle env))).

(** ** Entry helpers *)

Definition has_handle (h : TaskHandle_t) (t : TaskInfo) : Prop := handle t = h.

Global Instance has_handle_dec h t : Decision (has_handle h t).
Proof. unfold has_handle. apply _. Defined.

(** [Watchdog::findTaskByHandle]: a pointer to the first entry with this
    handle, here its index in the vector together with the entry. *)
Definition findTaskByHandle (h : TaskHandle_t) (l : list TaskInfo) : option (nat * TaskInfo) :=
  list_find (has_handle h) l.

(** [info->lastFeedTime = xTaskGetTickCount(); info->missedFeeds = 0;] *)
Definition fed (now : Z) (t : TaskInfo) : TaskInfo :=
  mkTaskInfo (handle t) (name t) now (feedIntervalMs t) 0 (isCritical t).

(** [task.missedFeeds++] on [std::atomic<uint32_t>]. *)
Definition missed (t : TaskInfo) : TaskInfo :=
  mkTaskInfo (handle t) (name t) (lastFeedTime t) (feedIntervalMs t)
             (u32 (missedFeeds t + 1)) (isCritical t).

(** ** Platform constants

    [portTICK_PERIOD_MS] and [configMAX_TASK_NAME_LEN] come from the FreeRTOS
    configuration and [ESP_IDF_VERSION_MAJOR] from the ESP-IDF headers; none
    of them is fixed by this repository. *)
Record Platform := mkPlatform {
  portTICK_PERIOD_MS : Z;
  configMAX_TASK_NAME_LEN : nat;
  ESP_IDF_VERSION_MAJOR : Z
}.

(** The interface of [IWatchdog] plus [getTaskInfo], as data. *)
Inductive Op :=
| OpInit (timeoutSeconds : Z) (panicOnTimeout : bool)
| OpDeinit
| OpRegisterCurrentTask (taskName : string) (isCritical : bool) (feedIntervalMs : Z)
| OpUnregisterCurrentTask
| OpUnregisterTaskByHandle (taskHandle : TaskHandle_t) (taskName : option string)
| OpFeed
| OpGetRegisteredTaskCount
| OpGetTaskInfo (taskName : option string)
| OpCheckHealth.

(** The private constructor: [initialized_(false)],
    [timeoutMs_(DEFAULT_TIMEOUT_MS)], [panicOnTimeout_(true)], no entry. *)
Definition constructed : World :=
  mkWorld (mkWatchdog false DEFAULT_TIMEOUT_MS true []) [].

Section Registry.

Context (pf : Platform).

Definition MAX_TASK_NAME_LEN : nat := configMAX_TASK_NAME_LEN pf.

(** *** [Watchdog::initWatchdogESPIDF] *)
Definition initWatchdogESPIDF (env : Env) : M Z :=
  timeoutMs ← load timeoutMs_;
  panic ← load panicOnTimeout_;
  (if 5 <=? ESP_IDF_VERSION_MAJOR pf
   then emit (Wdt (WdtInit timeoutMs panic))
   else emit (Wdt (WdtInit (timeoutMs / 1000) panic)));;
  ret (esp_task_wdt_init_result env).

(** *** [Watchdog::init] *)
Definition init (env : Env) (timeoutSeconds : Z) (panicOnTimeout : bool) : M bool :=
  initialized ← load initialized_;
  if initialized then ret true
  else if (timeoutSeconds =? 0) || (3600 <? timeoutSeconds) then ret false
  else
    store_timeoutMs (u32 (timeoutSeconds * 1000));;
    store_panicOnTimeout panicOnTimeout;;
    err ← initWatchdogESPIDF env;
    if err =? ESP_OK then
      store_initialized true;; ret true
    else if err =? ESP_ERR_INVALID_STATE then
      store_initialized true;; ret true
    else ret false.

(** *** [Watchdog::deinit] *)
Fixpoint deinit_loop (env : Env) (tasks : list TaskInfo) : M unit :=
  match tasks with
  | [] => ret tt
  | task :: rest => esp_task_wdt_delete env (handle task);; deinit_loop env rest
  end.

Definition deinit (env : Env) : M bool :=
  initialized ← load initialized_;
  if negb initialized then ret true
  else
    ok ← xSemaphoreTake env WaitMaxDelay;
    (if ok then
       tasks ← load registeredTasks_;
       deinit_loop env tasks;;
       store_tasks [];;
       xSemaphoreGive
     else ret tt);;
    store_initialized false;;
    ret true.

(** *** [Watchdog::registerCurrentTask] *)

(** [strncpy(info.name, taskName, MAX_TASK_NAME_LEN - 1)] into a zeroed
    buffer. *)
Definition copy_name (taskName : string) : string :=
  String.substring 0 (MAX_TASK_NAME_LEN - 1) taskName.

Definition new_entry (env : Env) (timeoutMs : Z) (currentTask : TaskHandle_t)
    (taskName : string) (isCritical : bool) (feedIntervalMs : Z) : TaskInfo :=
  mkTaskInfo currentTask (copy_name taskName) (xTaskGetTickCount env)
             (if 0 <? feedIntervalMs then feedIntervalMs else timeoutMs / 5)
             0 isCritical.

(** The TWDT part of registration: [true] when the method goes on to its own
    bookkeeping, [false] when it has returned [false]. *)
Definition register_with_twdt (env : Env) (currentTask : TaskHandle_t) : M bool :=
  status ← esp_task_wdt_status env currentTask;
  if status =? ESP_OK then ret true
  else if status =? ESP_ERR_NOT_FOUND then
    err ← esp_task_wdt_add env currentTask;
    ret (err =? ESP_OK)
  else ret false.

(** The answers of the TWDT under which [register_with_twdt] goes on: the
    task is already a participant, or it is not and adding it works. *)
Definition twdt_accepts (env : Env) (h : TaskHandle_t) : bool :=
  (esp_task_wdt_status_result env h =? ESP_OK)
  || ((esp_task_wdt_status_result env h =? ESP_ERR_NOT_FOUND)
      && (esp_task_wdt_add_result env h =? ESP_OK)).

Definition registerCurrentTask (env : Env) (taskName : string) (isCritical : bool)
    (feedIntervalMs : Z) : M bool :=
  initialized ← load initialized_;
  if negb initialized then ret false
  else
    let currentTask := xTaskGetCurrentTaskHandle env in
    if currentTask =? NULL then ret false
    else
      added ← register_with_twdt env currentTask;
      if negb added then ret false
      else
        ok ← xSemaphoreTake env WaitMaxDelay;
        if ok then
          tasks ← load registeredTasks_;
          match findTaskByHandle currentTask tasks with
          | Some existing => xSemaphoreGive;; ret true
          | None =>
              timeoutMs ← load timeoutMs_;
              store_tasks (tasks ++ [new_entry env timeoutMs currentTask taskName
                                               isCritical feedIntervalMs]);;
              xSemaphoreGive;;
              esp_task_wdt_reset env;;
              ret true
          end
        else ret false.

(** *** [Watchdog::unregisterTaskByHandle] and [unregisterCurrentTask] *)

(** [std::remove_if] followed by [erase]: every entry with the handle goes,
    the others keep their order. *)
Definition remove_handle (h : TaskHandle_t) (l : list TaskInfo) : list TaskInfo :=
  filter (λ t, ¬ has_handle h t) l.

Definition unregisterTaskByHandle (env : Env) (taskHandle : TaskHandle_t)
    (taskName : option string) : M bool :=
  if taskHandle =? NULL then ret false
  else
    err ← esp_task_wdt_delete env taskHandle;
    if negb (err =? ESP_OK) && negb (err =? ESP_ERR_NOT_FOUND) then ret false
    else
      ok ← xSemaphoreTake env WaitMaxDelay;
      (if ok then
         tasks ← load registeredTasks_;
         (match findTaskByHandle taskHandle tasks with
          | Some _ => store_tasks (remove_handle taskHandle tasks)
          | None => ret tt
          end);;
         xSemaphoreGive
       else ret tt);;
      ret true.

Definition unregisterCurrentTask (env : Env) : M bool :=
  let currentTask := xTaskGetCurrentTaskHandle env in
  if currentTask =? NULL then ret false
  else unregisterTaskByHandle env currentTask None.

(** *** [Watchdog::feed] *)
Definition feed (env : Env) : M bool :=
  let currentTask := xTaskGetCurrentTaskHandle env in
  if currentTask =? NULL then ret false
  else
    ok ← xSemaphoreTake env WaitTicks10ms;
    (if ok then
       tasks ← load registeredTasks_;
       (match findTaskByHandle currentTask tasks with
        | Some (i, _) => store_tasks (alter (fed (xTaskGetTickCount env)) i tasks)
        | None => ret tt
        end);;
       xSemaphoreGive
     else ret tt);;
    status ← esp_task_wdt_status env currentTask;
    (if status =? ESP_OK then esp_task_wdt_reset env else ret tt);;
    ret true.

(** *** [Watchdog::getRegisteredTaskCount] *)
Definition getRegisteredTaskCount (env : Env) : M nat :=
  ok ← xSemaphoreTake env WaitTicks10ms;
  if ok then
    tasks ← load registeredTasks_;
    xSemaphoreGive;;
    ret (length tasks)
  else ret 0%nat.

(** *** [Watchdog::getTaskInfo] *)

(** [strncmp(task.name, taskName, MAX_TASK_NAME_LEN) == 0] *)
Definition same_name (t : TaskInfo) (taskName : string) : bool :=
  String.eqb (String.substring 0 MAX_TASK_NAME_LEN (name t))
             (String.substring 0 MAX_TASK_NAME_LEN taskName).

Definition getTaskInfo (env : Env) (taskName : option string) : M (option TaskInfo) :=
  match taskName with
  | None => ret None
  | Some taskName =>
      ok ← xSemaphoreTake env WaitTicks10ms;
      if ok then
        tasks ← load registeredTasks_;
        match List.find (λ t, same_name t taskName) tasks with
        | Some task => xSemaphoreGive;; ret (Some task)
        | None => xSemaphoreGive;; ret None
        end
      else ret None
  end.

(** *** [Watchdog::checkHealth] *)

(** The test of the loop body:
    [timeSinceLastFeedMs > task.feedIntervalMs * 2], all in 32 bits. *)
Definition stale (now : Z) (task : TaskInfo) : bool :=
  let timeSinceLastFeed := u32 (now - lastFeedTime task) in
  let timeSinceLastFeedMs := u32 (timeSinceLastFeed * portTICK_PERIOD_MS pf) in
  u32 (feedIntervalMs task * 2) <? timeSinceLastFeedMs.

(** The range-for over [registeredTasks_]: [done] are the entries already
    visited, [todo] the ones still to visit. *)
Fixpoint checkHealth_loop (now : Z) (done todo : list TaskInfo) (unhealthyCount : nat)
    : M nat :=
  match todo with
  | [] => ret unhealthyCount
  | task :: rest =>
      if stale now task then
        store_tasks (done ++ missed task :: rest);;
        checkHealth_loop now (done ++ [missed task]) rest (S unhealthyCount)
      else checkHealth_loop now (done ++ [task]) rest unhealthyCount
  end.

Definition checkHealth (env : Env) : M nat :=
  let now := xTaskGetTickCount env in
  ok ← xSemaphoreTake env WaitTicks10ms;
  if ok then
    tasks ← load registeredTasks_;
    unhealthyCount ← checkHealth_loop now [] tasks 0%nat;
    xSemaphoreGive;;
    ret unhealthyCount
  else ret 0%nat.

(** What one pass of the loop body leaves in the place of [task]. *)
Definition scanned (now : Z) (task : TaskInfo) : TaskInfo :=
  if stale now task then missed task else task.

(** The staleness test as the specification words it, over the integers:
    the milliseconds elapsed since the last feed exceed twice the feed
    interval. *)
Definition elapsed_ms (now : Z) (task : TaskInfo) : Z :=
  (now - lastFeedTime task) * portTICK_PERIOD_MS pf.

Definition exceeds_grace (now : Z) (task : TaskInfo) : bool :=
  2 * feedIntervalMs task <? elapsed_ms now task.

(** The range in which none of the three 32-bit operations of [stale]
    wraps: the tick counter has not wrapped since the last feed, and the
    elapsed milliseconds and twice the interval fit in 32 bits. *)
Definition no_overflow (now : Z) (task : TaskInfo) : Prop :=
  0 ≤ lastFeedTime task ≤ now ∧ now ≤ UINT32_MAX ∧
  is_u32 (elapsed_ms now task) ∧ is_u32 (2 * feedIntervalMs task).

(** A saturating increment, as the specification words the counter. *)
Definition saturating_succ (m : Z) : Z := Z.min (m + 1) UINT32_MAX.

(** ** Executions *)

(** One call of a method; the return value is dropped. *)
Definition exec (env : Env) (op : Op) : World → World :=
  λ w,
    match op with
    | OpInit s p => snd (init env s p w)
    | OpDeinit => snd (deinit env w)
    | OpRegisterCurrentTask n c f => snd (registerCurrentTask env n c f w)
    | OpUnregisterCurrentTask => snd (unregisterCurrentTask env w)
    | OpUnregisterTaskByHandle h n => snd (unregisterTaskByHandle env h n w)
    | OpFeed => snd (feed env w)
    | OpGetRegisteredTaskCount => snd (getRegisteredTaskCount env w)
    | OpGetTaskInfo n => snd (getTaskInfo env n w)
    | OpCheckHealth => snd (checkHealth env w)
    end.

(** The arguments a C++ caller can pass: [uint32_t] values. *)
Definition valid_op (op : Op) : Prop :=
  match op with
  | OpInit s _ => is_u32 s
  | OpRegisterCurrentTask _ _ f => is_u32 f
  | _ => True
  end.

(** Every world the singleton can be in: constructed, then any number of
    method calls with any answers of the platform. *)
Inductive reachable : World → Prop :=
| reachable_constructed : reachable constructed
| reachable_exec env op w :
    reachable w → valid_op op → reachable (exec env op w).

(** ** Invariants of the registry object *)

(** Every entry expects feeds at a positive interval. *)
Definition positive_intervals (s : Watchdog) : Prop :=
  Forall (λ t, 0 < feedIntervalMs t) (registeredTasks_ s).

(** [timeoutMs_] is the default or what a call of [init] with 1 to 3600
    seconds stored. *)
Definition timeout_in_range (s : Watchdog) : Prop :=
  MIN_TIMEOUT_MS ≤ timeoutMs_ s ≤ 3600 * 1000.

(** At most one entry per task handle. *)
Definition one_entry_per_handle (s : Watchdog) : Prop :=
  NoDup (handle <$> registeredTasks_ s).

(** The ways in which a method changes the vector of entries, given the
    [timeoutMs_] it runs with. *)
Inductive tasks_step (timeoutMs : Z) (l : list TaskInfo) : list TaskInfo → Prop :=
| step_same : tasks_step timeoutMs l l
| step_clear : tasks_step timeoutMs l []
| step_push env n c f :
    findTaskByHandle (xTaskGetCurrentTaskHandle env) l = None →
    tasks_step timeoutMs l
      (l ++ [new_entry env timeoutMs (xTaskGetCurrentTaskHandle env) n c f])
| step_remove h : tasks_step timeoutMs l (remove_handle h l)
| step_fed now i : tasks_step timeoutMs l (alter (fed now) i l)
| step_scan now : tasks_step timeoutMs l (scanned now <$> l).

(** ** Lock discipline on traces *)

Definition is_wdt (e : Event) : Prop :=
  match e with Wdt _ => True | _ => False end.

(** [guarded protected held tr] replays [tr] starting with the mutex held or
    not: it is [Some held'] when every store to a protected field happens
    while the mutex is held, with [held'] the state of the mutex at the end,
    and [None] as soon as a protected field is stored without the mutex. *)
Fixpoint guarded (protected : Field → bool) (held : bool) (tr : list Event)
    : option bool :=
  match tr with
  | [] => Some held
  | SemTake _ ok :: tr' => guarded protected (held || ok) tr'
  | SemGive :: tr' => guarded protected false tr'
  | Store f :: tr' =>
      if negb held && protected f then None else guarded protected held tr'
  | Wdt _ :: tr' => guarded protected held tr'
  end.

Definition all_fields (f : Field) : bool := true.

Definition only_entries (f : Field) : bool :=
  match f with FRegisteredTasks => true | _ => false end.

(** What a call appends to the trace stores the protected fields under the
    mutex only and gives the mutex back. *)
Definition appends_disciplined (protected : Field → bool) (w w' : World) : Prop :=
  ∃ evs, trace w' = trace w ++ evs ∧ guarded protected false evs = Some false.

(** The methods that store [initialized_], [timeoutMs_] or
    [panicOnTimeout_]. *)
Definition stores_scalars (op : Op) : bool :=
  match op with OpInit _ _ | OpDeinit => true | _ => false end.

(** ** The rest of the class *)

(** [Watchdog::isInitialized] and [Watchdog::getTimeoutMs] (inline in
    Watchdog.h): plain reads, no mutex. *)
Definition isInitialized : M bool := load initialized_.

Definition getTimeoutMs : M Z := load timeoutMs_.

(** [Watchdog::updateFeedTime] (private, called by no method): the
    bookkeeping of [feed] without the mutex. *)
Definition updateFeedTime (env : Env) (h : TaskHandle_t) : M bool :=
  tasks ← load registeredTasks_;
  match findTaskByHandle h tasks with
  | Some (i, _) =>
      store_tasks (alter (fed (xTaskGetTickCount env)) i tasks);;
      ret true
  | None => ret false
  end.

(** The static pass-throughs of Watchdog.h; [getInstance()] is the one
    registry object of the world. *)
Definition quickInit := init.
Definition quickFeed := feed.
Definition quickRegister := registerCurrentTask.
Definition isGloballyInitialized := isInitialized.
Definition getGlobalTaskCount := getRegisteredTaskCount.
Definition quickCheckHealth := checkHealth.

(** ** Reading traces *)

(** The calls into the ESP-IDF task watchdog among some events, in order. *)
Fixpoint wdt_calls (tr : list Event) : list WdtCall :=
  match tr with
  | [] => []
  | Wdt c :: tr' => c :: wdt_calls tr'
  | _ :: tr' => wdt_calls tr'
  end.

(** The number of times the mutex was asked for. *)
Fixpoint takes (tr : list Event) : nat :=
  match tr with
  | [] => 0
  | SemTake _ _ :: tr' => S (takes tr')
  | _ :: tr' => takes tr'
  end.

(** ** Well-formed entries *)

(** What every entry made by [registerCurrentTask] looks like: a real
    handle, a name that fits the buffer with its terminator, a counter in
    [uint32_t]. *)
Definition entry_wf (t : TaskInfo) : Prop :=
  handle t ≠ NULL ∧
  (String.length (name t) ≤ MAX_TASK_NAME_LEN - 1)%nat ∧
  is_u32 (missedFeeds t).

(** [k] health scans in a row with the same answers of the platform. *)
Definition rescan (env : Env) (k : nat) (w : World) : World :=
  Nat.iter k (λ w', snd (checkHealth env w')) w.

(** An entry with its counter set. *)
Definition with_missedFeeds (t : TaskInfo) (m : Z) : TaskInfo :=
  mkTaskInfo (handle t) (name t) (lastFeedTime t) (feedIntervalMs t) m (isCritical t).

End Registry.

(** ** Concrete scenarios *)

(** An ESP32 under Arduino: 1 kHz tick, 16-byte task names, ESP-IDF 5. *)
Definition esp32 : Platform := mkPlatform 1 16 5.

Definition taskA : TaskHandle_t := 1073470000.
Definition taskB : TaskHandle_t := 1073480000.

(** The platform answers of a call by task [h] at tick [tick]: the mutex is
    obtained or not, [esp_task_wdt_init] answers [err], every other TWDT call
    answers [ESP_OK]. *)
Definition answers (h : TaskHandle_t) (tick : Z) (ok : bool) (err : Z) : Env :=
  mkEnv h tick ok err (λ _, ESP_OK) (λ _, ESP_OK) (λ _, ESP_OK).

(** [init(10, false)], then task A registers with a 1000 ms interval at
    tick 0. *)
Definition w_init : World :=
  exec esp32 (answers taskA 0 true ESP_OK) (OpInit 10 false) constructed.

Definition w_registered : World :=
  exec esp32 (answers taskA 0 true ESP_OK) (OpRegisterCurrentTask "A" true 1000) w_init.

Definition entryA : TaskInfo := mkTaskInfo taskA "A" 0 1000 0 true.

(** An entry whose counter has reached [UINT32_MAX]. *)
Definition entry_maxed : TaskInfo := mkTaskInfo taskA "A" 0 1000 UINT32_MAX true.

Definition w_maxed : World := mkWorld (mkWatchdog true 10000 false [entry_maxed]) [].

(** Task A registers with [feedIntervalMs = 2^31] instead. *)
Definition entry_long : TaskInfo := mkTaskInfo taskA "A" 0 2147483648 0 true.

Definition w_long : World :=
  exec esp32 (answers taskA 0 true ESP_OK)
       (OpRegisterCurrentTask "A" true 2147483648) w_init.

(** [n] health scans in a row, each at tick 2500 and each obtaining the
    mutex. *)
Definition scans (n : nat) (w : World) : World :=
  Nat.iter n (exec esp32 (answers taskB 2500 true ESP_OK) OpCheckHealth) w.

(** A TWDT that does not know the task and refuses to add it. *)
Definition refusing (h : TaskHandle_t) : Env :=
  mkEnv h 0 true ESP_OK (λ _, ESP_ERR_NOT_FOUND) (λ _, ESP_FAIL) (λ _, ESP_FAIL).

(** Task B registers at tick 40, after task A, with the default interval. *)
Definition w_two : World :=
  exec esp32 (answers taskB 40 true ESP_OK) (OpRegisterCurrentTask "B" false 0) w_registered.

Definition entryB : TaskInfo := mkTaskInfo taskB "B" 40 2000 0 false.

(** Task B registers under a name of 16 characters, one more than the 15
    the buffer keeps. *)
Definition w_longname : World :=
  exec esp32 (answers taskB 40 true ESP_OK)
       (OpRegisterCurrentTask "ProblematicTask1" false 3000) w_registered.

(** * Proofs *)

Ltac unfold_prims :=
  unfold xSemaphoreTake, xSemaphoreGive, esp_task_wdt_status,
    esp_task_wdt_add, esp_task_wdt_delete, esp_task_wdt_reset,
    store_initialized, store_timeoutMs, store_panicOnTimeout, store_tasks,
    load, emit, bind, ret in *.

Ltac run := unfold_prims; cbn [fst snd self trace initialized_ timeoutMs_
                               panicOnTimeout_ registeredTasks_ negb with_tasks] in *.

Lemma with_tasks_same s : with_tasks s (registeredTasks_ s) = s.
Proof. now destruct s. Qed.

Lemma u32_small x : 0 ≤ x ≤ UINT32_MAX → u32 x = x.
Proof. unfold u32, UINT32_MAX. intros. apply Z.mod_small. lia. Qed.

Lemma u32_range x : is_u32 (u32 x).
Proof.
  unfold is_u32, u32, UINT32_MAX.
  pose proof (Z.mod_pos_bound x 4294967296). lia.
Qed.

(** ** [findTaskByHandle] *)

Lemma findTaskByHandle_Some h l i t :
  findTaskByHandle h l = Some (i, t) →
  l !! i = Some t ∧ handle t = h ∧ ∀ j u, l !! j = Some u → (j < i)%nat → handle u ≠ h.
Proof. unfold findTaskByHandle. intros H. now apply list_find_Some in H. Qed.

Lemma findTaskByHandle_None h l :
  findTaskByHandle h l = None ↔ Forall (λ t, handle t ≠ h) l.
Proof.
  unfold findTaskByHandle. rewrite list_find_None.
  split; intros H; exact H.
Qed.

Lemma findTaskByHandle_appended h l t :
  findTaskByHandle h l = None → handle t = h →
  findTaskByHandle h (l ++ [t]) = Some (length l, t).
Proof.
  intros Hn Ht. unfold findTaskByHandle in *.
  apply list_find_Some. rewrite list_find_None in Hn. repeat split.
  - now rewrite lookup_app_r, Nat.sub_diag by lia.
  - exact Ht.
  - intros j u Hj Hlt. rewrite lookup_app_l in Hj by lia.
    eapply Forall_lookup_1 in Hn; eauto.
Qed.

Lemma findTaskByHandle_removed h l : findTaskByHandle h (remove_handle h l) = None.
Proof.
  apply findTaskByHandle_None, Forall_forall. intros t Ht.
  unfold remove_handle in Ht. apply list_elem_of_filter in Ht as [Hne _]. exact Hne.
Qed.

Lemma remove_handle_absent h l :
  Forall (λ t, handle t ≠ h) l → remove_handle h l = l.
Proof.
  unfold remove_handle. induction 1 as [|t l Ht _ IH]; [reflexivity|].
  rewrite filter_cons_True by exact Ht. now rewrite IH.
Qed.

(** With one entry per handle, the entry found for a handle is the entry
    that carries it. *)
Lemma findTaskByHandle_unique l i t :
  NoDup (handle <$> l) → l !! i = Some t → findTaskByHandle (handle t) l = Some (i, t).
Proof.
  intros Hnd Hi. unfold findTaskByHandle. apply list_find_Some.
  split; [exact Hi | split; [reflexivity |]].
  intros j u Hj Hlt Heq.
  assert (Hji : j = i); [|lia].
  eapply NoDup_lookup; [exact Hnd | |].
  - rewrite list_lookup_fmap, Hj. reflexivity.
  - rewrite list_lookup_fmap, Hi. cbn. now rewrite Heq.
Qed.

Lemma filter_alter_false {A} (p : A → bool) (f : A → A) (l : list A) :
  ∀ i x, l !! i = Some x → p (f x) = false →
         List.filter p (alter f i l) = List.filter p (delete i l).
Proof.
  induction l as [|a l IH]; intros [|i] x Hi Hp; try discriminate; cbn in *.
  - injection Hi as ->. now rewrite Hp.
  - now rewrite (IH i x Hi Hp).
Qed.

Section RegistryFacts.

Context (pf : Platform).

(** ** [init] *)

Lemma init_when_initialized env s p w :
  initialized_ (self w) = true → init pf env s p w = (true, w).
Proof. intros Hi. unfold init. run. now rewrite Hi. Qed.

Lemma init_success_initialized env s p w :
  fst (init pf env s p w) = true → initialized_ (self (snd (init pf env s p w))) = true.
Proof.
  unfold init, initWatchdogESPIDF. run.
  destruct (initialized_ (self w)) eqn:Hi; [now cbn|].
  destruct ((s =? 0) || (3600 <? s)); [cbn; discriminate|].
  repeat case_match; cbn; auto; discriminate.
Qed.

Lemma init_fresh_timeout env s p w :
  initialized_ (self w) = false → fst (init pf env s p w) = true →
  timeoutMs_ (self (snd (init pf env s p w))) = u32 (s * 1000).
Proof.
  intros Hi. unfold init, initWatchdogESPIDF. run. rewrite Hi.
  destruct ((s =? 0) || (3600 <? s)); [cbn; discriminate|].
  repeat case_match; cbn; auto; discriminate.
Qed.

(** C4: once [init] has returned [true], a second [init] with any arguments
    and any answer of the TWDT returns [true] and changes nothing: the whole
    world, and with it [timeoutMs_], stays as the first call left it.  When
    the first call was the one that initialized (with a [uint32_t] number of
    seconds), that value is the first call's seconds times 1000. *)
Theorem init_idempotent env1 env2 s1 p1 s2 p2 w :
  fst (init pf env1 s1 p1 w) = true →
  let w1 := snd (init pf env1 s1 p1 w) in
  init pf env2 s2 p2 w1 = (true, w1) ∧
  timeoutMs_ (self (snd (init pf env2 s2 p2 w1))) = timeoutMs_ (self w1) ∧
  (initialized_ (self w) = false → is_u32 s1 →
   timeoutMs_ (self (snd (init pf env2 s2 p2 w1))) = s1 * 1000).
Proof.
  intros Hok w1.
  assert (Hsecond : init pf env2 s2 p2 w1 = (true, w1))
    by (apply init_when_initialized, init_success_initialized, Hok).
  rewrite Hsecond. cbn [snd]. repeat split.
  intros Hfresh Hs. subst w1. rewrite init_fresh_timeout by assumption.
  assert (Hrange : ¬ (s1 = 0 ∨ 3600 < s1)).
  { intros Hbad. revert Hok. unfold init. run. rewrite Hfresh.
    replace ((s1 =? 0) || (3600 <? s1)) with true; [cbn; discriminate|].
    symmetry. apply orb_true_iff. destruct Hbad; [left|right]; lia. }
  apply u32_small. unfold is_u32, UINT32_MAX in *. lia.
Qed.

(** C5: on a registry that is not initialized, [init] with 0 seconds or with
    more than 3600 seconds returns [false] and leaves the world as it was:
    [initialized_] stays [false], [timeoutMs_], [panicOnTimeout_] and the
    entries are untouched, and nothing is stored and no TWDT call is made
    (the trace is unchanged). *)
Theorem init_rejects_out_of_range env s p w :
  initialized_ (self w) = false → s = 0 ∨ 3600 < s →
  init pf env s p w = (false, w) ∧
  initialized_ (self (snd (init pf env s p w))) = false.
Proof.
  intros Hi Hs.
  assert (Hr : init pf env s p w = (false, w)).
  { unfold init. run. rewrite Hi.
    replace ((s =? 0) || (3600 <? s)) with true; [reflexivity|].
    symmetry. apply orb_true_iff. destruct Hs; [left|right]; lia. }
  now rewrite Hr.
Qed.

(** C6: on a registry that is not initialized and with a timeout in range,
    when [esp_task_wdt_init] answers [ESP_ERR_INVALID_STATE] (armed by
    someone else) [init] returns [true] and sets [initialized_]; when it
    answers anything other than [ESP_OK] and [ESP_ERR_INVALID_STATE], [init]
    returns [false] and [initialized_] stays [false]. *)
Theorem init_adapter_outcomes env s p w :
  initialized_ (self w) = false → 1 ≤ s ≤ 3600 →
  (esp_task_wdt_init_result env = ESP_ERR_INVALID_STATE →
   fst (init pf env s p w) = true ∧
   initialized_ (self (snd (init pf env s p w))) = true) ∧
  (esp_task_wdt_init_result env ≠ ESP_OK →
   esp_task_wdt_init_result env ≠ ESP_ERR_INVALID_STATE →
   fst (init pf env s p w) = false ∧
   initialized_ (self (snd (init pf env s p w))) = false).
Proof.
  intros Hi Hs.
  assert (Hin : (s =? 0) || (3600 <? s) = false).
  { apply orb_false_iff. split; lia. }
  unfold init, initWatchdogESPIDF. run. rewrite Hi, Hin.
  destruct (5 <=? ESP_IDF_VERSION_MAJOR pf); cbn.
  all: split;
    [ intros ->; cbn; auto
    | intros Hok Hst;
      destruct (Z.eqb_spec (esp_task_wdt_init_result env) ESP_OK); [contradiction|];
      destruct (Z.eqb_spec (esp_task_wdt_init_result env) ESP_ERR_INVALID_STATE);
      [contradiction|]; cbn; auto ].
Qed.

(** ** [feed] *)

Lemma feed_no_identity env w :
  xTaskGetCurrentTaskHandle env = NULL → feed env w = (false, w).
Proof. intros Hh. unfold feed. now rewrite Hh. Qed.

Lemma feed_returns_true env w :
  xTaskGetCurrentTaskHandle env ≠ NULL → fst (feed env w) = true.
Proof.
  intros Hh. unfold feed.
  destruct (Z.eqb_spec (xTaskGetCurrentTaskHandle env) NULL); [contradiction|].
  run. repeat case_match; reflexivity.
Qed.

Lemma feed_absent env w :
  findTaskByHandle (xTaskGetCurrentTaskHandle env) (registeredTasks_ (self w)) = None →
  self (snd (feed env w)) = self w.
Proof.
  intros Hf. unfold feed.
  destruct (xTaskGetCurrentTaskHandle env =? NULL); [reflexivity|].
  run. destruct (xSemaphoreTake_ok env); cbn; rewrite ?Hf; cbn;
    destruct (esp_task_wdt_status_result env _ =? ESP_OK); reflexivity.
Qed.

Lemma feed_locked_out env w :
  xSemaphoreTake_ok env = false → self (snd (feed env w)) = self w.
Proof.
  intros Hl. unfold feed.
  destruct (xTaskGetCurrentTaskHandle env =? NULL); [reflexivity|].
  run. rewrite Hl. cbn.
  destruct (esp_task_wdt_status_result env _ =? ESP_OK); reflexivity.
Qed.

Lemma feed_present env w i t :
  xTaskGetCurrentTaskHandle env ≠ NULL → xSemaphoreTake_ok env = true →
  findTaskByHandle (xTaskGetCurrentTaskHandle env) (registeredTasks_ (self w)) = Some (i, t) →
  self (snd (feed env w)) =
    with_tasks (self w) (alter (fed (xTaskGetTickCount env)) i (registeredTasks_ (self w))).
Proof.
  intros Hh Hl Hf. unfold feed.
  destruct (Z.eqb_spec (xTaskGetCurrentTaskHandle env) NULL); [contradiction|].
  run. rewrite Hl. cbn. rewrite Hf. cbn.
  destruct (esp_task_wdt_status_result env _ =? ESP_OK); reflexivity.
Qed.

(** ** [unregisterTaskByHandle] *)

Lemma unregisterTaskByHandle_removes env h n w :
  xSemaphoreTake_ok env = true → fst (unregisterTaskByHandle env h n w) = true →
  registeredTasks_ (self (snd (unregisterTaskByHandle env h n w))) =
    remove_handle h (registeredTasks_ (self w)).
Proof.
  intros Hl. unfold unregisterTaskByHandle.
  destruct (h =? NULL); [cbn; discriminate|].
  run. destruct (negb _ && negb _); [cbn; discriminate|].
  rewrite Hl. intros _. cbn.
  destruct (findTaskByHandle h (registeredTasks_ (self w))) as [[i t]|] eqn:Hf; cbn.
  - reflexivity.
  - apply findTaskByHandle_None in Hf. unfold remove_handle.
    symmetry. apply remove_handle_absent. exact Hf.
Qed.

(** ** [getRegisteredTaskCount] *)

Lemma getRegisteredTaskCount_value env w :
  fst (getRegisteredTaskCount env w) =
    if xSemaphoreTake_ok env then length (registeredTasks_ (self w)) else 0%nat.
Proof. unfold getRegisteredTaskCount. run. now destruct (xSemaphoreTake_ok env). Qed.

(** C9: [feed] by a task that has a handle but no entry in the registry
    returns [true] and leaves the registry object as it was: no entry is
    created, the entries and their number (also as [getRegisteredTaskCount]
    reports it) are unchanged; and a handle that [unregisterTaskByHandle] has
    just removed is such a handle, so feeding after unregistering does not
    bring the entry back. *)
Theorem feed_without_entry_tolerated env w :
  xTaskGetCurrentTaskHandle env ≠ NULL →
  findTaskByHandle (xTaskGetCurrentTaskHandle env) (registeredTasks_ (self w)) = None →
  fst (feed env w) = true ∧
  self (snd (feed env w)) = self w ∧
  findTaskByHandle (xTaskGetCurrentTaskHandle env)
    (registeredTasks_ (self (snd (feed env w)))) = None ∧
  (∀ env', fst (getRegisteredTaskCount env' (snd (feed env w))) =
           fst (getRegisteredTaskCount env' w)) ∧
  (∀ env0 n w0,
     xSemaphoreTake_ok env0 = true →
     fst (unregisterTaskByHandle env0 (xTaskGetCurrentTaskHandle env) n w0) = true →
     let w1 := snd (unregisterTaskByHandle env0 (xTaskGetCurrentTaskHandle env) n w0) in
     fst (feed env w1) = true ∧ self (snd (feed env w1)) = self w1 ∧
     length (registeredTasks_ (self (snd (feed env w1)))) =
       length (registeredTasks_ (self w1))).
Proof.
  intros Hh Hf.
  pose proof (feed_absent env w Hf) as Hs.
  split; [now apply feed_returns_true|].
  split; [exact Hs|].
  split; [now rewrite Hs|].
  split; [intros env'; now rewrite !getRegisteredTaskCount_value, Hs|].
  intros env0 n w0 Hl Hu w1.
  assert (Hgone : findTaskByHandle (xTaskGetCurrentTaskHandle env)
                    (registeredTasks_ (self w1)) = None).
  { subst w1. rewrite unregisterTaskByHandle_removes by assumption.
    apply findTaskByHandle_removed. }
  split; [now apply feed_returns_true|].
  rewrite (feed_absent env w1 Hgone). split; reflexivity.
Qed.

(** C10: when the scheduler gives no current task handle, [feed] returns
    [false] and the world is exactly as before: no field of the registry is
    stored, the mutex is not taken and no TWDT call is made.  With a handle,
    [feed] returns [true] whether or not the handle has an entry. *)
Theorem feed_without_identity_fails env w :
  xTaskGetCurrentTaskHandle env = NULL →
  feed env w = (false, w) ∧
  trace (snd (feed env w)) = trace w ∧
  (∀ env', xTaskGetCurrentTaskHandle env' ≠ NULL → fst (feed env' w) = true).
Proof.
  intros Hh. rewrite (feed_no_identity env w Hh).
  split; [reflexivity|]. split; [reflexivity|].
  intros env'. apply feed_returns_true.
Qed.

(** ** [registerCurrentTask] *)

Lemma register_with_twdt_value env h w :
  fst (register_with_twdt env h w) = twdt_accepts env h ∧
  self (snd (register_with_twdt env h w)) = self w.
Proof.
  unfold register_with_twdt, twdt_accepts. run.
  destruct (esp_task_wdt_status_result env h =? ESP_OK); [now cbn|].
  destruct (esp_task_wdt_status_result env h =? ESP_ERR_NOT_FOUND); now cbn.
Qed.

Lemma registerCurrentTask_true env n c f w :
  fst (registerCurrentTask pf env n c f w) = true →
  initialized_ (self w) = true ∧ xTaskGetCurrentTaskHandle env ≠ NULL ∧
  twdt_accepts env (xTaskGetCurrentTaskHandle env) = true ∧
  xSemaphoreTake_ok env = true.
Proof.
  unfold registerCurrentTask. run.
  destruct (initialized_ (self w)); [|cbn; discriminate]. cbn.
  destruct (Z.eqb_spec (xTaskGetCurrentTaskHandle env) NULL); [cbn; discriminate|].
  destruct (register_with_twdt_value env (xTaskGetCurrentTaskHandle env) w) as [-> _].
  destruct (twdt_accepts env _); [|cbn; discriminate]. cbn.
  destruct (xSemaphoreTake_ok env); [|cbn; discriminate].
  intros _. repeat split; assumption.
Qed.

Lemma registerCurrentTask_accepted env n c f w :
  initialized_ (self w) = true → xTaskGetCurrentTaskHandle env ≠ NULL →
  twdt_accepts env (xTaskGetCurrentTaskHandle env) = true →
  xSemaphoreTake_ok env = true →
  fst (registerCurrentTask pf env n c f w) = true ∧
  self (snd (registerCurrentTask pf env n c f w)) =
    match findTaskByHandle (xTaskGetCurrentTaskHandle env) (registeredTasks_ (self w)) with
    | Some _ => self w
    | None =>
        with_tasks (self w)
          (registeredTasks_ (self w) ++
           [new_entry pf env (timeoutMs_ (self w)) (xTaskGetCurrentTaskHandle env) n c f])
    end.
Proof.
  intros Hi Hh Ha Hl. unfold registerCurrentTask. run. rewrite Hi. cbn.
  destruct (Z.eqb_spec (xTaskGetCurrentTaskHandle env) NULL); [contradiction|].
  destruct (register_with_twdt_value env (xTaskGetCurrentTaskHandle env) w) as [-> Hs].
  rewrite Ha, Hl. cbn. rewrite !Hs.
  destruct (findTaskByHandle _ _); cbn; rewrite ?Hs; auto.
Qed.

Lemma registerCurrentTask_self env n c f w :
  self (snd (registerCurrentTask pf env n c f w)) = self w ∨
  self (snd (registerCurrentTask pf env n c f w)) =
    with_tasks (self w)
      (registeredTasks_ (self w) ++
       [new_entry pf env (timeoutMs_ (self w)) (xTaskGetCurrentTaskHandle env) n c f]) ∧
  findTaskByHandle (xTaskGetCurrentTaskHandle env) (registeredTasks_ (self w)) = None.
Proof.
  destruct (fst (registerCurrentTask pf env n c f w)) eqn:Hr.
  - apply registerCurrentTask_true in Hr as (Hi & Hh & Ha & Hl).
    destruct (registerCurrentTask_accepted env n c f w Hi Hh Ha Hl) as [_ ->].
    destruct (findTaskByHandle _ _); auto.
  - left. revert Hr. unfold registerCurrentTask. run.
    destruct (initialized_ (self w)); [|reflexivity]. cbn.
    destruct (xTaskGetCurrentTaskHandle env =? NULL); [reflexivity|].
    destruct (register_with_twdt_value env (xTaskGetCurrentTaskHandle env) w) as [-> Hs].
    destruct (twdt_accepts env _); [|now cbn]. cbn.
    destruct (xSemaphoreTake_ok env); [|now cbn]. cbn.
    destruct (findTaskByHandle _ _); cbn; discriminate.
Qed.

Lemma registerCurrentTask_result env n c f w :
  initialized_ (self w) = true → xTaskGetCurrentTaskHandle env ≠ NULL →
  fst (registerCurrentTask pf env n c f w) =
    twdt_accepts env (xTaskGetCurrentTaskHandle env) && xSemaphoreTake_ok env.
Proof.
  intros Hi Hh.
  destruct (fst (registerCurrentTask pf env n c f w)) eqn:Hr.
  - apply registerCurrentTask_true in Hr as (_ & _ & -> & ->). reflexivity.
  - destruct (twdt_accepts env _) eqn:Ha; [|reflexivity].
    destruct (xSemaphoreTake_ok env) eqn:Hl; [|reflexivity].
    destruct (registerCurrentTask_accepted env n c f w Hi Hh Ha Hl) as [Hok _].
    congruence.
Qed.

Lemma registerCurrentTask_existing env n c f w :
  is_Some (findTaskByHandle (xTaskGetCurrentTaskHandle env) (registeredTasks_ (self w))) →
  self (snd (registerCurrentTask pf env n c f w)) = self w.
Proof.
  intros [x Hx].
  destruct (registerCurrentTask_self env n c f w) as [Hs | [_ Hf]]; [exact Hs|].
  congruence.
Qed.

(** C8: when [registerCurrentTask] has returned [true] for a task and the
    same task calls it again, the second call leaves the registry object as
    the first call left it: every entry keeps all its fields, [lastFeedTime]
    included, and the number of entries, also as [getRegisteredTaskCount]
    reports it, is unchanged.  The second call returns [true] when the TWDT
    accepts the task as before (it is a participant, or adding it works) and
    the mutex is obtained; these two answers of the platform are all that its
    result depends on. *)
Theorem register_twice_is_noop env1 env2 n1 c1 f1 n2 c2 f2 w :
  fst (registerCurrentTask pf env1 n1 c1 f1 w) = true →
  xTaskGetCurrentTaskHandle env2 = xTaskGetCurrentTaskHandle env1 →
  let w1 := snd (registerCurrentTask pf env1 n1 c1 f1 w) in
  let w2 := snd (registerCurrentTask pf env2 n2 c2 f2 w1) in
  self w2 = self w1 ∧
  (∀ i, registeredTasks_ (self w2) !! i = registeredTasks_ (self w1) !! i) ∧
  (∀ env', fst (getRegisteredTaskCount env' w2) = fst (getRegisteredTaskCount env' w1)) ∧
  fst (registerCurrentTask pf env2 n2 c2 f2 w1) =
    twdt_accepts env2 (xTaskGetCurrentTaskHandle env2) && xSemaphoreTake_ok env2 ∧
  (twdt_accepts env2 (xTaskGetCurrentTaskHandle env2) = true →
   xSemaphoreTake_ok env2 = true →
   fst (registerCurrentTask pf env2 n2 c2 f2 w1) = true).
Proof.
  intros H1 Hsame w1 w2.
  destruct (registerCurrentTask_true _ _ _ _ _ H1) as (Hi & Hh & Ha & Hl).
  destruct (registerCurrentTask_accepted env1 n1 c1 f1 w Hi Hh Ha Hl) as [_ Hw1].
  fold w1 in Hw1.
  assert (Hi1 : initialized_ (self w1) = true).
  { rewrite Hw1. destruct (findTaskByHandle _ _); [exact Hi | exact Hi]. }
  assert (Hfound : is_Some (findTaskByHandle (xTaskGetCurrentTaskHandle env2)
                              (registeredTasks_ (self w1)))).
  { rewrite Hsame, Hw1.
    destruct (findTaskByHandle _ (registeredTasks_ (self w))) as [[i t]|] eqn:Hf.
    - rewrite Hf. eauto.
    - cbn [registeredTasks_ with_tasks].
      erewrite findTaskByHandle_appended; [eauto | exact Hf | reflexivity]. }
  assert (Hh2 : xTaskGetCurrentTaskHandle env2 ≠ NULL) by now rewrite Hsame.
  assert (Hw2 : self w2 = self w1) by now apply registerCurrentTask_existing.
  pose proof (registerCurrentTask_result env2 n2 c2 f2 w1 Hi1 Hh2) as Hres.
  split; [exact Hw2|].
  split; [intros i; now rewrite Hw2|].
  split; [intros env'; now rewrite !getRegisteredTaskCount_value, Hw2|].
  split; [exact Hres|].
  intros Ha2 Hl2. now rewrite Hres, Ha2, Hl2.
Qed.

(** ** [checkHealth] *)

Lemma checkHealth_loop_spec now todo :
  ∀ done n w,
    registeredTasks_ (self w) = done ++ todo →
    let k := length (List.filter (stale pf now) todo) in
    fst (checkHealth_loop pf now done todo n w) = (n + k)%nat ∧
    self (snd (checkHealth_loop pf now done todo n w)) =
      with_tasks (self w) (done ++ (scanned pf now <$> todo)) ∧
    trace (snd (checkHealth_loop pf now done todo n w)) =
      trace w ++ replicate k (Store FRegisteredTasks).
Proof.
  induction todo as [|task rest IH]; intros done n w Hw; cbn -[stale].
  - split; [lia|]. split.
    + rewrite app_nil_r in *. rewrite <- Hw. symmetry. apply with_tasks_same.
    + now rewrite app_nil_r.
  - unfold scanned at 1. destruct (stale pf now task) eqn:Hst; cbn -[stale].
    + run.
      specialize (IH (done ++ [missed task]) (S n)
                     (mkWorld (with_tasks (self w) (done ++ missed task :: rest))
                              (trace w ++ [Store FRegisteredTasks]))).
      cbn [self trace registeredTasks_ with_tasks] in IH.
      rewrite <- app_assoc in IH. destruct (IH eq_refl) as (Hc & Hs & Ht).
      rewrite Hc, Hs, Ht. rewrite <- !app_assoc. cbn.
      repeat split; lia.
    + specialize (IH (done ++ [task]) n w).
      rewrite <- app_assoc in IH. destruct (IH Hw) as (Hc & Hs & Ht).
      rewrite Hc, Hs, Ht. rewrite <- !app_assoc. auto.
Qed.

Lemma checkHealth_locked env w :
  xSemaphoreTake_ok env = true →
  fst (checkHealth pf env w) =
    length (List.filter (stale pf (xTaskGetTickCount env)) (registeredTasks_ (self w))) ∧
  self (snd (checkHealth pf env w)) =
    with_tasks (self w) (scanned pf (xTaskGetTickCount env) <$> registeredTasks_ (self w)).
Proof.
  intros Hl. unfold checkHealth. run. rewrite Hl.
  pose proof (checkHealth_loop_spec (xTaskGetTickCount env) (registeredTasks_ (self w)) [] 0%nat
                (mkWorld (self w) (trace w ++ [SemTake WaitTicks10ms true])) eq_refl)
    as (Hc & Hs & _).
  cbn [self trace] in *. now rewrite Hc, Hs.
Qed.

Lemma checkHealth_locked_out env w :
  xSemaphoreTake_ok env = false →
  fst (checkHealth pf env w) = 0%nat ∧ self (snd (checkHealth pf env w)) = self w.
Proof. intros Hl. unfold checkHealth. run. now rewrite Hl. Qed.

(** In range, the 32-bit test is the test over the integers. *)
Lemma stale_exceeds_grace now task :
  no_overflow pf now task → stale pf now task = exceeds_grace pf now task.
Proof.
  intros (Hlast & Hnow & Hel & Hfi). unfold stale, exceeds_grace.
  unfold elapsed_ms in *.
  rewrite (u32_small (now - lastFeedTime task)) by lia.
  rewrite (u32_small _ Hel). rewrite Z.mul_comm, (u32_small _ Hfi). reflexivity.
Qed.

Lemma stale_just_fed now task : stale pf now (fed now task) = false.
Proof.
  unfold stale, fed. cbn [lastFeedTime feedIntervalMs].
  rewrite Z.sub_diag. change (u32 0) with 0. rewrite Z.mul_0_l. change (u32 0) with 0.
  apply Z.ltb_ge. apply u32_range.
Qed.

Lemma missed_count task :
  is_u32 (missedFeeds task) →
  missedFeeds (missed task) =
    if missedFeeds task =? UINT32_MAX then 0 else missedFeeds task + 1.
Proof.
  unfold is_u32, missed, u32, UINT32_MAX. cbn. intros Hm.
  destruct (Z.eqb_spec (missedFeeds task) 4294967295) as [->|Hne]; [reflexivity|].
  apply Z.mod_small. lia.
Qed.

(** C1 (amended): [missedFeeds] is a 32-bit counter that wraps.  A
    [checkHealth] scan that obtains the mutex and finds an entry stale adds
    one to its [missedFeeds] in [uint32_t] arithmetic: one more while the
    count is below 4294967295, and 0 from 4294967295; an entry found not
    stale is left as it is.  A [feed] by the owning task that obtains the
    mutex sets the entry's [missedFeeds] to 0 (and its [lastFeedTime] to the
    current tick). *)
Theorem missedFeeds_wrapping_counter env w i task :
  registeredTasks_ (self w) !! i = Some task →
  is_u32 (missedFeeds task) →
  xSemaphoreTake_ok env = true →
  let now := xTaskGetTickCount env in
  registeredTasks_ (self (snd (checkHealth pf env w))) !! i = Some (scanned pf now task) ∧
  (stale pf now task = true →
   missedFeeds (scanned pf now task) =
     if missedFeeds task =? UINT32_MAX then 0 else missedFeeds task + 1) ∧
  (stale pf now task = false → scanned pf now task = task) ∧
  (NoDup (handle <$> registeredTasks_ (self w)) →
   xTaskGetCurrentTaskHandle env = handle task → handle task ≠ NULL →
   registeredTasks_ (self (snd (feed env w))) !! i = Some (fed now task) ∧
   missedFeeds (fed now task) = 0).
Proof.
  intros Hi Hm Hl now.
  destruct (checkHealth_locked env w Hl) as [_ Hs].
  split.
  { rewrite Hs. cbn [registeredTasks_ with_tasks].
    rewrite list_lookup_fmap, Hi. reflexivity. }
  split.
  { intros Hst. unfold scanned. rewrite Hst. now apply missed_count. }
  split.
  { intros Hst. unfold scanned. now rewrite Hst. }
  intros Hnd Hcur Hnn.
  assert (Hf : findTaskByHandle (xTaskGetCurrentTaskHandle env)
                 (registeredTasks_ (self w)) = Some (i, task)).
  { rewrite Hcur. now apply findTaskByHandle_unique. }
  rewrite (feed_present env w i task) by (assumption || (rewrite Hcur; assumption)).
  cbn [registeredTasks_ with_tasks].
  rewrite list_lookup_alter_eq, Hi. split; reflexivity.
Qed.

(** C2 (amended): a [checkHealth] that obtains the mutex returns the number
    of entries that pass the test of the code, which is made in 32-bit
    arithmetic; when for every entry the tick counter has not wrapped since
    its last feed and neither the elapsed milliseconds nor twice the feed
    interval overflow 32 bits, this is exactly the number of entries whose
    elapsed time exceeds twice their [feedIntervalMs].  A [checkHealth] that
    does not obtain the mutex returns 0 and changes no entry.  After a [feed]
    that has updated the entry of the task that called it, a [checkHealth]
    (by any task) at the same tick finds that entry not stale, leaves its
    [missedFeeds] at 0 and counts only among the other entries. *)
Theorem checkHealth_counts_stale env w :
  let now := xTaskGetTickCount env in
  let tasks := registeredTasks_ (self w) in
  (xSemaphoreTake_ok env = true →
   fst (checkHealth pf env w) = length (List.filter (stale pf now) tasks) ∧
   (Forall (no_overflow pf now) tasks →
    fst (checkHealth pf env w) = length (List.filter (exceeds_grace pf now) tasks)) ∧
   (∀ fenv i task,
      xTaskGetCurrentTaskHandle fenv ≠ NULL →
      xSemaphoreTake_ok fenv = true →
      xTaskGetTickCount fenv = now →
      findTaskByHandle (xTaskGetCurrentTaskHandle fenv) tasks = Some (i, task) →
      let w' := snd (feed fenv w) in
      registeredTasks_ (self w') !! i = Some (fed now task) ∧
      stale pf now (fed now task) = false ∧
      registeredTasks_ (self (snd (checkHealth pf env w'))) !! i = Some (fed now task) ∧
      fst (checkHealth pf env w') = length (List.filter (stale pf now) (delete i tasks)))) ∧
  (xSemaphoreTake_ok env = false →
   fst (checkHealth pf env w) = 0%nat ∧ self (snd (checkHealth pf env w)) = self w).
Proof.
  intros now tasks. split; [|apply checkHealth_locked_out].
  intros Hl.
  destruct (checkHealth_locked env w Hl) as [Hc _].
  split; [exact Hc|]. split.
  { intros Hrange. rewrite Hc. f_equal.
    apply List.filter_ext_in. intros t Ht.
    apply stale_exceeds_grace.
    rewrite Forall_forall in Hrange. apply Hrange. now apply list_elem_of_In. }
  intros fenv i task Hh Hfl Htick Hf w'.
  destruct (findTaskByHandle_Some _ _ _ _ Hf) as (Hi & _ & _).
  assert (Hself : self w' = with_tasks (self w) (alter (fed now) i tasks))
    by (subst w' now; rewrite <- Htick; now apply (feed_present fenv w i task Hh Hfl Hf)).
  assert (Hw' : registeredTasks_ (self w') !! i = Some (fed now task)).
  { rewrite Hself. cbn [registeredTasks_ with_tasks].
    now rewrite list_lookup_alter_eq, Hi. }
  destruct (checkHealth_locked env w' Hl) as [Hc' Hs'].
  split; [exact Hw'|]. split; [apply stale_just_fed|].
  split.
  - rewrite Hs'. cbn [registeredTasks_ with_tasks].
    rewrite list_lookup_fmap, Hw'. cbn. unfold scanned.
    fold now. now rewrite stale_just_fed.
  - rewrite Hc', Hself. cbn [registeredTasks_ with_tasks]. f_equal.
    apply (filter_alter_false _ _ _ i task Hi). apply stale_just_fed.
Qed.

(** ** Traces *)

Lemma guarded_app P held a b :
  guarded P held (a ++ b) =
    match guarded P held a with Some held' => guarded P held' b | None => None end.
Proof.
  revert held. induction a as [|e a IH]; intros held; [reflexivity|].
  destruct e as [wt ok| |f|c]; cbn; rewrite ?IH; try reflexivity.
  destruct (negb held && P f); reflexivity.
Qed.

Lemma guarded_wdt P held evs : Forall is_wdt evs → guarded P held evs = Some held.
Proof.
  induction 1 as [|e evs He _ IH]; [reflexivity|].
  destruct e; cbn in He; try contradiction. exact IH.
Qed.

Lemma guarded_stores_held P k f :
  guarded P true (replicate k (Store f)) = Some true.
Proof. induction k as [|k IH]; [reflexivity|]. exact IH. Qed.

Ltac trace_done :=
  first
    [ exists []; split; [symmetry; apply app_nil_r | reflexivity]
    | rewrite <- ?app_assoc; eexists; split; reflexivity ].

Lemma init_trace env s p w :
  appends_disciplined only_entries w (snd (init pf env s p w)).
Proof.
  unfold appends_disciplined, init, initWatchdogESPIDF. run.
  destruct (initialized_ (self w)); cbn; [trace_done|].
  destruct ((s =? 0) || (3600 <? s)); cbn; [trace_done|].
  destruct (5 <=? ESP_IDF_VERSION_MAJOR pf); cbn;
    destruct (esp_task_wdt_init_result env =? ESP_OK); cbn; try trace_done;
    destruct (esp_task_wdt_init_result env =? ESP_ERR_INVALID_STATE); cbn; trace_done.
Qed.

Lemma init_self env s p w :
  registeredTasks_ (self (snd (init pf env s p w))) = registeredTasks_ (self w) ∧
  (timeoutMs_ (self (snd (init pf env s p w))) = timeoutMs_ (self w) ∨
   s ≠ 0 ∧ s ≤ 3600 ∧ timeoutMs_ (self (snd (init pf env s p w))) = u32 (s * 1000)).
Proof.
  unfold init, initWatchdogESPIDF. run.
  destruct (initialized_ (self w)); cbn; [auto|].
  destruct (Z.eqb_spec s 0); cbn; [auto|].
  destruct (Z.ltb_spec 3600 s); cbn; [auto|].
  destruct (5 <=? ESP_IDF_VERSION_MAJOR pf); cbn;
    destruct (esp_task_wdt_init_result env =? ESP_OK); cbn; auto;
    destruct (esp_task_wdt_init_result env =? ESP_ERR_INVALID_STATE); cbn; auto.
Qed.

Lemma deinit_loop_spec env l :
  ∀ w, self (snd (deinit_loop env l w)) = self w ∧
       trace (snd (deinit_loop env l w)) =
         trace w ++ ((λ t, Wdt (WdtDelete (handle t))) <$> l).
Proof.
  induction l as [|t l IH]; intros w; cbn.
  - now rewrite app_nil_r.
  - run. destruct (IH (mkWorld (self w) (trace w ++ [Wdt (WdtDelete (handle t))])))
      as [Hs Ht].
    rewrite Hs, Ht. cbn. now rewrite <- app_assoc.
Qed.

Lemma deinit_self env w :
  timeoutMs_ (self (snd (deinit env w))) = timeoutMs_ (self w) ∧
  (registeredTasks_ (self (snd (deinit env w))) = registeredTasks_ (self w) ∨
   registeredTasks_ (self (snd (deinit env w))) = []).
Proof.
  unfold deinit. run.
  destruct (initialized_ (self w)); cbn; [|auto].
  destruct (xSemaphoreTake_ok env); cbn; [|auto].
  destruct (deinit_loop_spec env (registeredTasks_ (self w))
              (mkWorld (self w) (trace w ++ [SemTake WaitMaxDelay true]))) as [Hs _].
  cbn [self trace] in Hs. rewrite Hs. auto.
Qed.

Lemma deinit_trace env w : appends_disciplined only_entries w (snd (deinit env w)).
Proof.
  unfold appends_disciplined, deinit. run.
  destruct (initialized_ (self w)); cbn; [|trace_done].
  destruct (xSemaphoreTake_ok env); cbn; [|trace_done].
  destruct (deinit_loop_spec env (registeredTasks_ (self w))
              (mkWorld (self w) (trace w ++ [SemTake WaitMaxDelay true]))) as [_ Ht].
  cbn [self trace] in Ht. rewrite Ht. rewrite <- !app_assoc.
  eexists. split; [reflexivity|].
  cbn. rewrite guarded_app, guarded_wdt; [reflexivity|].
  apply Forall_fmap, Forall_forall. intros; exact I.
Qed.

Lemma register_with_twdt_trace env h w :
  ∃ evs, trace (snd (register_with_twdt env h w)) = trace w ++ evs ∧ Forall is_wdt evs.
Proof.
  unfold register_with_twdt. run.
  destruct (esp_task_wdt_status_result env h =? ESP_OK); cbn;
    [|destruct (esp_task_wdt_status_result env h =? ESP_ERR_NOT_FOUND); cbn];
    rewrite <- ?app_assoc; eexists; (split; [reflexivity|]);
    repeat constructor.
Qed.

Lemma registerCurrentTask_trace P env n c f w :
  appends_disciplined P w (snd (registerCurrentTask pf env n c f w)).
Proof.
  unfold appends_disciplined, registerCurrentTask. run.
  destruct (initialized_ (self w)); cbn; [|trace_done].
  destruct (xTaskGetCurrentTaskHandle env =? NULL); cbn; [trace_done|].
  destruct (register_with_twdt_trace env (xTaskGetCurrentTaskHandle env) w)
    as (evs & Ht & Hq).
  assert (Hg : ∀ held rest, guarded P held (evs ++ rest)
                            = guarded P held rest)
    by (intros; now rewrite guarded_app, guarded_wdt).
  destruct (fst (register_with_twdt env (xTaskGetCurrentTaskHandle env) w)); cbn.
  2: { rewrite Ht. eexists. split; [reflexivity|]. now apply guarded_wdt. }
  destruct (xSemaphoreTake_ok env); cbn.
  2: { rewrite Ht, <- !app_assoc. eexists. split; [reflexivity|].
       now rewrite Hg. }
  destruct (findTaskByHandle _ _); cbn; rewrite Ht, <- !app_assoc;
    eexists; (split; [reflexivity|]); now rewrite Hg.
Qed.

Lemma unregisterTaskByHandle_self env h n w :
  self (snd (unregisterTaskByHandle env h n w)) = self w ∨
  self (snd (unregisterTaskByHandle env h n w)) =
    with_tasks (self w) (remove_handle h (registeredTasks_ (self w))).
Proof.
  unfold unregisterTaskByHandle. run.
  destruct (h =? NULL); cbn; [auto|].
  destruct (negb _ && negb _); cbn; [auto|].
  destruct (xSemaphoreTake_ok env); cbn; [|auto].
  destruct (findTaskByHandle _ _); cbn; auto.
Qed.

Lemma unregisterTaskByHandle_trace P env h n w :
  appends_disciplined P w (snd (unregisterTaskByHandle env h n w)).
Proof.
  unfold appends_disciplined, unregisterTaskByHandle. run.
  destruct (h =? NULL); cbn; [trace_done|].
  destruct (negb _ && negb _); cbn; [trace_done|].
  destruct (xSemaphoreTake_ok env); cbn; [|trace_done].
  destruct (findTaskByHandle _ _); cbn; trace_done.
Qed.

Lemma unregisterCurrentTask_self env w :
  self (snd (unregisterCurrentTask env w)) = self w ∨
  self (snd (unregisterCurrentTask env w)) =
    with_tasks (self w)
      (remove_handle (xTaskGetCurrentTaskHandle env) (registeredTasks_ (self w))).
Proof.
  unfold unregisterCurrentTask.
  destruct (xTaskGetCurrentTaskHandle env =? NULL); [now left|].
  apply unregisterTaskByHandle_self.
Qed.

Lemma unregisterCurrentTask_trace P env w :
  appends_disciplined P w (snd (unregisterCurrentTask env w)).
Proof.
  unfold unregisterCurrentTask.
  destruct (xTaskGetCurrentTaskHandle env =? NULL);
    [unfold appends_disciplined, ret; cbn; trace_done|].
  apply unregisterTaskByHandle_trace.
Qed.

Lemma feed_self env w :
  self (snd (feed env w)) = self w ∨
  ∃ i, self (snd (feed env w)) =
         with_tasks (self w)
           (alter (fed (xTaskGetTickCount env)) i (registeredTasks_ (self w))).
Proof.
  destruct (Z.eq_dec (xTaskGetCurrentTaskHandle env) NULL) as [Hh|Hh].
  { left. now rewrite feed_no_identity. }
  destruct (xSemaphoreTake_ok env) eqn:Hl; [|left; now apply feed_locked_out].
  destruct (findTaskByHandle (xTaskGetCurrentTaskHandle env) (registeredTasks_ (self w)))
    as [[i t]|] eqn:Hf; [|left; now apply feed_absent].
  right. exists i. eapply feed_present; eauto.
Qed.

Lemma feed_trace P env w :
  appends_disciplined P w (snd (feed env w)).
Proof.
  unfold appends_disciplined, feed. run.
  destruct (xTaskGetCurrentTaskHandle env =? NULL); cbn; [trace_done|].
  destruct (xSemaphoreTake_ok env); cbn;
    [destruct (findTaskByHandle _ _) as [[i t]|]; cbn|];
    destruct (esp_task_wdt_status_result env _ =? ESP_OK); cbn; trace_done.
Qed.

Lemma getRegisteredTaskCount_self env w :
  self (snd (getRegisteredTaskCount env w)) = self w.
Proof. unfold getRegisteredTaskCount. run. now destruct (xSemaphoreTake_ok env). Qed.

Lemma getRegisteredTaskCount_trace P env w :
  appends_disciplined P w (snd (getRegisteredTaskCount env w)).
Proof.
  unfold appends_disciplined, getRegisteredTaskCount. run.
  destruct (xSemaphoreTake_ok env); cbn; trace_done.
Qed.

Lemma getTaskInfo_self env n w : self (snd (getTaskInfo pf env n w)) = self w.
Proof.
  unfold getTaskInfo. destruct n as [n|]; [|reflexivity]. run.
  destruct (xSemaphoreTake_ok env); cbn; [|reflexivity].
  destruct (List.find _ _); reflexivity.
Qed.

Lemma getTaskInfo_trace P env n w :
  appends_disciplined P w (snd (getTaskInfo pf env n w)).
Proof.
  unfold appends_disciplined, getTaskInfo.
  destruct n as [n|]; [|unfold ret; cbn; trace_done]. run.
  destruct (xSemaphoreTake_ok env); cbn; [|trace_done].
  destruct (List.find _ _); cbn; trace_done.
Qed.

Lemma checkHealth_trace P env w :
  appends_disciplined P w (snd (checkHealth pf env w)).
Proof.
  unfold appends_disciplined, checkHealth. run.
  destruct (xSemaphoreTake_ok env); cbn; [|trace_done].
  pose proof (checkHealth_loop_spec (xTaskGetTickCount env) (registeredTasks_ (self w)) [] 0%nat
                (mkWorld (self w) (trace w ++ [SemTake WaitTicks10ms true])) eq_refl)
    as (_ & _ & Ht).
  cbn [self trace] in Ht. rewrite Ht, <- !app_assoc.
  eexists. split; [reflexivity|].
  cbn. now rewrite guarded_app, guarded_stores_held.
Qed.

(** ** What the steps on the entries preserve *)

Lemma new_entry_interval env tm h n c f :
  5 ≤ tm → 0 < feedIntervalMs (new_entry pf env tm h n c f).
Proof.
  intros Htm. unfold new_entry. cbn [feedIntervalMs].
  destruct (Z.ltb_spec 0 f); [assumption|].
  apply Z.div_str_pos. lia.
Qed.

Lemma tasks_step_positive tm l l' :
  5 ≤ tm → tasks_step pf tm l l' →
  Forall (λ t, 0 < feedIntervalMs t) l → Forall (λ t, 0 < feedIntervalMs t) l'.
Proof.
  intros Htm Hstep Hl. destruct Hstep as [| |env n c f Hf|h|now i|now].
  - exact Hl.
  - constructor.
  - apply Forall_app. split; [exact Hl|].
    constructor; [now apply new_entry_interval | constructor].
  - apply Forall_forall. intros t Ht.
    unfold remove_handle in Ht. apply list_elem_of_filter in Ht as [_ Ht].
    rewrite Forall_forall in Hl. now apply Hl.
  - apply Forall_alter; [exact Hl|]. intros t _ Ht. exact Ht.
  - apply Forall_fmap. eapply Forall_impl; [exact Hl|].
    intros t Ht. unfold scanned. cbn. now destruct (stale pf now t).
Qed.

Lemma tasks_step_one_per_handle tm l l' :
  tasks_step pf tm l l' → NoDup (handle <$> l) → NoDup (handle <$> l').
Proof.
  intros Hstep Hl. destruct Hstep as [| |env n c f Hf|h|now i|now].
  - exact Hl.
  - constructor.
  - rewrite fmap_app. apply NoDup_app. split; [exact Hl|]. split.
    + intros x Hx Hin. cbn in Hin. apply list_elem_of_singleton in Hin. subst x.
      apply list_elem_of_fmap in Hx as (t & Heq & Ht).
      apply findTaskByHandle_None in Hf. rewrite Forall_forall in Hf.
      apply (Hf t Ht). now rewrite <- Heq.
    + cbn. apply NoDup_singleton.
  - eapply sublist_NoDup; [exact Hl|].
    apply fmap_sublist. unfold remove_handle. apply sublist_filter.
  - erewrite list_fmap_alter with (h := id).
    + now rewrite list_alter_id.
    + apply Forall_forall. intros; reflexivity.
  - rewrite <- list_fmap_compose.
    erewrite list_fmap_ext; [exact Hl|].
    intros j t _. cbn. unfold scanned. now destruct (stale pf now t).
Qed.

(** ** One call *)

Lemma exec_tasks_step env op w :
  tasks_step pf (timeoutMs_ (self w)) (registeredTasks_ (self w))
             (registeredTasks_ (self (exec pf env op w))).
Proof.
  destruct op as [s p| |n c f| |h n| | |n|]; cbn [exec].
  - destruct (init_self env s p w) as [-> _]. constructor.
  - destruct (deinit_self env w) as [_ [-> | ->]]; constructor.
  - destruct (registerCurrentTask_self env n c f w) as [-> | [-> Hf]];
      [constructor|]. cbn [registeredTasks_ with_tasks]. now constructor.
  - destruct (unregisterCurrentTask_self env w) as [-> | ->]; constructor.
  - destruct (unregisterTaskByHandle_self env h n w) as [-> | ->]; constructor.
  - destruct (feed_self env w) as [-> | [i ->]]; constructor.
  - rewrite getRegisteredTaskCount_self. constructor.
  - rewrite getTaskInfo_self. constructor.
  - destruct (xSemaphoreTake_ok env) eqn:Hl.
    + destruct (checkHealth_locked env w Hl) as [_ ->]. constructor.
    + destruct (checkHealth_locked_out env w Hl) as [_ ->]. constructor.
Qed.

Lemma exec_timeout env op w :
  valid_op op → timeout_in_range (self w) → timeout_in_range (self (exec pf env op w)).
Proof.
  unfold timeout_in_range, MIN_TIMEOUT_MS.
  intros Hv Hw. destruct op as [s p| |n c f| |h n| | |n|]; cbn [exec].
  - destruct (init_self env s p w) as [_ [-> | (Hs0 & Hs & ->)]]; [exact Hw|].
    cbn in Hv. unfold is_u32, UINT32_MAX in Hv.
    rewrite u32_small by (unfold UINT32_MAX; lia). lia.
  - destruct (deinit_self env w) as [-> _]. exact Hw.
  - destruct (registerCurrentTask_self env n c f w) as [-> | [-> _]]; exact Hw.
  - destruct (unregisterCurrentTask_self env w) as [-> | ->]; exact Hw.
  - destruct (unregisterTaskByHandle_self env h n w) as [-> | ->]; exact Hw.
  - destruct (feed_self env w) as [-> | [i ->]]; exact Hw.
  - now rewrite getRegisteredTaskCount_self.
  - now rewrite getTaskInfo_self.
  - destruct (xSemaphoreTake_ok env) eqn:Hl.
    + destruct (checkHealth_locked env w Hl) as [_ ->]. exact Hw.
    + destruct (checkHealth_locked_out env w Hl) as [_ ->]. exact Hw.
Qed.

Lemma exec_trace_all P env op w :
  stores_scalars op = false → appends_disciplined P w (exec pf env op w).
Proof.
  destruct op; cbn [exec stores_scalars]; try discriminate; intros _;
    auto using registerCurrentTask_trace,
      unregisterCurrentTask_trace, unregisterTaskByHandle_trace, feed_trace,
      getRegisteredTaskCount_trace, getTaskInfo_trace, checkHealth_trace.
Qed.

Lemma exec_trace env op w : appends_disciplined only_entries w (exec pf env op w).
Proof.
  destruct (stores_scalars op) eqn:Hop; [|now apply exec_trace_all].
  destruct op; try discriminate; cbn [exec]; auto using init_trace, deinit_trace.
Qed.

(** ** Every reachable world *)

Lemma reachable_timeout w : reachable pf w → timeout_in_range (self w).
Proof.
  induction 1 as [|env op w _ IH Hv].
  - unfold timeout_in_range, MIN_TIMEOUT_MS. cbn. unfold DEFAULT_TIMEOUT_MS. lia.
  - now apply exec_timeout.
Qed.

Lemma reachable_positive_intervals w : reachable pf w → positive_intervals (self w).
Proof.
  induction 1 as [|env op w Hr IH Hv]; [constructor|].
  unfold positive_intervals in *.
  eapply tasks_step_positive; [| apply exec_tasks_step | exact IH].
  apply reachable_timeout in Hr. unfold timeout_in_range, MIN_TIMEOUT_MS in Hr. lia.
Qed.

Lemma reachable_one_entry_per_handle w : reachable pf w → one_entry_per_handle (self w).
Proof.
  induction 1 as [|env op w Hr IH Hv]; [constructor|].
  unfold one_entry_per_handle in *.
  eapply tasks_step_one_per_handle; [apply exec_tasks_step | exact IH].
Qed.

Lemma reachable_trace w :
  reachable pf w → guarded only_entries false (trace w) = Some false.
Proof.
  induction 1 as [|env op w Hr IH Hv]; [reflexivity|].
  destruct (exec_trace env op w) as (evs & -> & Hevs).
  now rewrite guarded_app, IH.
Qed.

(** C7: in every world the registry can reach, every entry has
    [feedIntervalMs > 0], and every method called with [uint32_t] arguments
    keeps it so.  On an initialized registry, a task with a handle and
    without an entry that the TWDT accepts and that obtains the mutex is
    registered: [registerCurrentTask] returns [true] and appends one entry,
    which stores the supplied interval when it is positive and
    [timeoutMs_ / 5] when it is 0; and whenever [registerCurrentTask] returns
    [true] for a task without an entry, that is the entry it has stored.
    [timeoutMs_ / 5] is positive in every reachable world, as it is for every
    timeout [init] accepts (1 to 3600 seconds, in milliseconds). *)
Theorem feedIntervalMs_positive w :
  reachable pf w →
  positive_intervals (self w) ∧
  (∀ env op, valid_op op → positive_intervals (self (exec pf env op w))) ∧
  0 < timeoutMs_ (self w) / 5 ∧
  (∀ secs, 1 ≤ secs ≤ 3600 → 0 < u32 (secs * 1000) / 5) ∧
  (∀ env n c f,
     fst (registerCurrentTask pf env n c f w) = true →
     findTaskByHandle (xTaskGetCurrentTaskHandle env) (registeredTasks_ (self w)) = None →
     ∃ e,
       registeredTasks_ (self (snd (registerCurrentTask pf env n c f w))) =
         registeredTasks_ (self w) ++ [e] ∧
       handle e = xTaskGetCurrentTaskHandle env ∧
       feedIntervalMs e = (if 0 <? f then f else timeoutMs_ (self w) / 5) ∧
       0 < feedIntervalMs e) ∧
  (∀ env n c f,
     initialized_ (self w) = true →
     xTaskGetCurrentTaskHandle env ≠ NULL →
     twdt_accepts env (xTaskGetCurrentTaskHandle env) = true →
     xSemaphoreTake_ok env = true →
     findTaskByHandle (xTaskGetCurrentTaskHandle env) (registeredTasks_ (self w)) = None →
     fst (registerCurrentTask pf env n c f w) = true ∧
     ∃ e,
       registeredTasks_ (self (snd (registerCurrentTask pf env n c f w))) =
         registeredTasks_ (self w) ++ [e] ∧
       findTaskByHandle (xTaskGetCurrentTaskHandle env)
         (registeredTasks_ (self (snd (registerCurrentTask pf env n c f w)))) =
         Some (length (registeredTasks_ (self w)), e) ∧
       handle e = xTaskGetCurrentTaskHandle env ∧
       feedIntervalMs e = (if 0 <? f then f else timeoutMs_ (self w) / 5) ∧
       0 < feedIntervalMs e).
Proof.
  intros Hr.
  pose proof (reachable_timeout w Hr) as Htm.
  unfold timeout_in_range, MIN_TIMEOUT_MS in Htm.
  split; [now apply reachable_positive_intervals|].
  split.
  { intros env op Hv. apply reachable_positive_intervals. now constructor. }
  split; [apply Z.div_str_pos; lia|].
  split.
  { intros secs Hs. rewrite u32_small by (unfold UINT32_MAX; lia).
    apply Z.div_str_pos. lia. }
  split.
  { intros env n c f Hok Hf.
    destruct (registerCurrentTask_true _ _ _ _ _ Hok) as (Hi & Hh & Ha & Hl).
    destruct (registerCurrentTask_accepted env n c f w Hi Hh Ha Hl) as [_ Hs].
    rewrite Hf in Hs. rewrite Hs. cbn [registeredTasks_ with_tasks].
    eexists. split; [reflexivity|]. split; [reflexivity|].
    split; [reflexivity|]. apply new_entry_interval. lia. }
  intros env n c f Hi Hh Ha Hl Hf.
  destruct (registerCurrentTask_accepted env n c f w Hi Hh Ha Hl) as [Hok Hs].
  rewrite Hf in Hs. split; [exact Hok|].
  rewrite Hs. cbn [registeredTasks_ with_tasks].
  eexists. split; [reflexivity|].
  split; [now apply findTaskByHandle_appended|].
  split; [reflexivity|].
  split; [reflexivity|]. apply new_entry_interval. lia.
Qed.

(** C3 (amended): in every execution, the entry collection (the vector and
    the fields of its entries) is stored only between a successful take of
    the mutex and the give that follows, and every method returns with the
    mutex given back.  [registerCurrentTask], [unregisterCurrentTask],
    [unregisterTaskByHandle], [feed], [getRegisteredTaskCount],
    [getTaskInfo] and [checkHealth] store no field at all outside the mutex.
    Nothing is said here of the stores of [init] and [deinit] to
    [initialized_], [timeoutMs_] and [panicOnTimeout_]. *)
Theorem entries_stored_under_mutex w :
  reachable pf w →
  guarded only_entries false (trace w) = Some false ∧
  (∀ env op, appends_disciplined only_entries w (exec pf env op w)) ∧
  (∀ env op, stores_scalars op = false →
             appends_disciplined all_fields w (exec pf env op w)).
Proof.
  intros Hr. split; [now apply reachable_trace|].
  split; [intros; apply exec_trace | intros; now apply exec_trace_all].
Qed.

End RegistryFacts.


(** * The scenarios, evaluated *)

Example w_registered_entries : registeredTasks_ (self w_registered) = [entryA].
Proof. reflexivity. Qed.

Example w_registered_trace :
  trace w_registered =
    [Store FTimeoutMs; Store FPanicOnTimeout; Wdt (WdtInit 10000 false);
     Store FInitialized; Wdt (WdtStatus taskA); SemTake WaitMaxDelay true;
     Store FRegisteredTasks; SemGive; Wdt (WdtReset taskA)].
Proof. reflexivity. Qed.

(** "Feed resets staleness": 2500 ms after registration the entry is stale;
    fed at 2500, it is not. *)
Example stale_then_fed :
  fst (checkHealth esp32 (answers taskA 2500 true ESP_OK) w_registered) = 1%nat ∧
  fst (checkHealth esp32 (answers taskA 2500 true ESP_OK)
         (snd (feed (answers taskA 2500 true ESP_OK) w_registered))) = 0%nat.
Proof. split; reflexivity. Qed.

(** "Missed-feed counter": three scans of the stale entry count 1, 2, 3 and
    one feed resets to 0. *)
Example three_scans_then_feed :
  let scan := exec esp32 (answers taskB 2500 true ESP_OK) OpCheckHealth in
  missedFeeds <$> registeredTasks_ (self (scan w_registered)) = [1] ∧
  missedFeeds <$> registeredTasks_ (self (scan (scan w_registered))) = [2] ∧
  missedFeeds <$> registeredTasks_ (self (scan (scan (scan w_registered)))) = [3] ∧
  missedFeeds <$> registeredTasks_
    (self (exec esp32 (answers taskA 2600 true ESP_OK) OpFeed
             (scan (scan (scan w_registered))))) = [0].
Proof. repeat split; reflexivity. Qed.

Lemma w_registered_reachable : reachable esp32 w_registered.
Proof.
  unfold w_registered, w_init.
  apply reachable_exec;
    [apply reachable_exec; [apply reachable_constructed|]|];
    cbn; unfold is_u32, UINT32_MAX; lia.
Defined.

Lemma w_long_reachable : reachable esp32 w_long.
Proof.
  unfold w_long, w_init.
  apply reachable_exec;
    [apply reachable_exec; [apply reachable_constructed|]|];
    cbn; unfold is_u32, UINT32_MAX; lia.
Qed.

(** The counter of an entry that is never fed follows the number of scans
    modulo 2^32, so every value of the counter is reached, the largest
    included. *)
Lemma scans_reachable n w : reachable esp32 w → reachable esp32 (scans n w).
Proof.
  intros Hw. induction n as [|n IH]; [exact Hw|].
  change (scans (S n) w)
    with (exec esp32 (answers taskB 2500 true ESP_OK) OpCheckHealth (scans n w)).
  apply reachable_exec; [exact IH | exact I].
Qed.

Lemma scans_registered n :
  self (scans n w_registered) =
    mkWatchdog true 10000 false [mkTaskInfo taskA "A" 0 1000 (u32 (Z.of_nat n)) true].
Proof.
  induction n as [|n IH]; [reflexivity|].
  change (scans (S n) w_registered)
    with (exec esp32 (answers taskB 2500 true ESP_OK) OpCheckHealth (scans n w_registered)).
  cbn [exec].
  destruct (checkHealth_locked esp32 (answers taskB 2500 true ESP_OK)
              (scans n w_registered) eq_refl) as [_ ->].
  rewrite IH. cbn [registeredTasks_ with_tasks initialized_ timeoutMs_ panicOnTimeout_
                   xTaskGetTickCount answers fmap list_fmap].
  unfold scanned.
  replace (stale esp32 2500 _) with true by reflexivity.
  unfold missed. cbn [handle name lastFeedTime feedIntervalMs missedFeeds isCritical].
  do 3 f_equal. unfold u32.
  rewrite Nat2Z.inj_succ, <- Z.add_1_r. apply Zplus_mod_idemp_l.
Qed.

Lemma w_maxed_reachable : ∃ w, reachable esp32 w ∧ self w = self w_maxed.
Proof.
  exists (scans (Z.to_nat UINT32_MAX) w_registered).
  split; [apply scans_reachable, w_registered_reachable|].
  rewrite scans_registered, Z2Nat.id by (unfold UINT32_MAX; lia).
  reflexivity.
Qed.

(** ** Where the specification and the code part *)

(** C1, as stated: the counter saturates.  On an entry whose counter is at
    4294967295 and which the scan finds stale, [checkHealth] leaves the
    counter at 0, not at the maximum; and the registry can get there, by
    4294967295 scans of an entry that is never fed. *)
Lemma missedFeeds_wraps_at_max :
  let env := answers taskB 2500 true ESP_OK in
  registeredTasks_ (self w_maxed) !! 0%nat = Some entry_maxed ∧
  missedFeeds entry_maxed = UINT32_MAX ∧
  stale esp32 (xTaskGetTickCount env) entry_maxed = true ∧
  fst (checkHealth esp32 env w_maxed) = 1%nat ∧
  missedFeeds <$> registeredTasks_ (self (snd (checkHealth esp32 env w_maxed))) = [0] ∧
  saturating_succ (missedFeeds entry_maxed) = UINT32_MAX ∧
  (∃ w, reachable esp32 w ∧ self w = self w_maxed).
Proof. repeat split; try reflexivity. exact w_maxed_reachable. Qed.

(** C2, as stated: the entries counted are exactly those whose elapsed time
    exceeds twice the interval.  With an interval of 2^31 ms, twice the
    interval is 0 in 32 bits: one millisecond after registration the entry is
    counted, though 1 ms does not exceed 4294967296 ms.  And a scan that does
    not get the mutex counts nothing, whatever the entries. *)
Lemma checkHealth_counts_within_grace :
  let env := answers taskB 1 true ESP_OK in
  let busy := answers taskB 2500 false ESP_OK in
  (reachable esp32 w_long ∧
   registeredTasks_ (self w_long) = [entry_long] ∧
   elapsed_ms esp32 (xTaskGetTickCount env) entry_long = 1 ∧
   2 * feedIntervalMs entry_long = 4294967296 ∧
   length (List.filter (exceeds_grace esp32 (xTaskGetTickCount env))
             (registeredTasks_ (self w_long))) = 0%nat ∧
   fst (checkHealth esp32 env w_long) = 1%nat) ∧
  (length (List.filter (exceeds_grace esp32 (xTaskGetTickCount busy))
             (registeredTasks_ (self w_registered))) = 1%nat ∧
   fst (checkHealth esp32 busy w_registered) = 0%nat).
Proof. repeat split; try reflexivity. exact w_long_reachable. Qed.

(** C3, as stated: all four fields are stored under the mutex only.  [init]
    on the constructed registry stores [timeoutMs_], [panicOnTimeout_] and
    [initialized_] and never takes the mutex. *)
Lemma init_stores_without_mutex :
  reachable esp32 w_init ∧
  trace w_init =
    [Store FTimeoutMs; Store FPanicOnTimeout; Wdt (WdtInit 10000 false);
     Store FInitialized] ∧
  guarded all_fields false (trace w_init) = None.
Proof.
  split; [|split; reflexivity].
  apply reachable_exec; [apply reachable_constructed|].
  cbn. unfold is_u32, UINT32_MAX. lia.
Qed.

(** ** The theorems at the scenarios *)

Lemma missedFeeds_wrapping_counter_witness :
  let env := answers taskA 2500 true ESP_OK in
  registeredTasks_ (self (snd (checkHealth esp32 env w_registered))) !! 0%nat =
    Some (scanned esp32 2500 entryA) ∧
  registeredTasks_ (self (snd (feed env w_registered))) !! 0%nat = Some (fed 2500 entryA).
Proof.
  intros env.
  destruct (missedFeeds_wrapping_counter esp32 env w_registered 0 entryA)
    as (Hscan & _ & _ & Hfeed).
  - reflexivity.
  - unfold is_u32, UINT32_MAX. cbn. lia.
  - reflexivity.
  - split; [exact Hscan|].
    apply Hfeed; [vm_compute; apply NoDup_singleton | reflexivity | discriminate].
Defined.

Lemma checkHealth_counts_stale_witness :
  fst (checkHealth esp32 (answers taskA 2500 true ESP_OK) w_registered) =
    length (List.filter (exceeds_grace esp32 2500) (registeredTasks_ (self w_registered))).
Proof.
  destruct (checkHealth_counts_stale esp32 (answers taskA 2500 true ESP_OK) w_registered)
    as [Hlocked _].
  destruct Hlocked as (_ & Hcount & _).
  - reflexivity.
  - apply Hcount. change (Forall (no_overflow esp32 2500) [entryA]).
    apply Forall_singleton. unfold no_overflow, is_u32, elapsed_ms, UINT32_MAX. cbn. lia.
Defined.

Lemma entries_stored_under_mutex_witness :
  guarded only_entries false (trace w_registered) = Some false.
Proof.
  exact (proj1 (entries_stored_under_mutex esp32 w_registered w_registered_reachable)).
Defined.

Lemma init_idempotent_witness :
  let w1 := snd (init esp32 (answers taskA 0 true ESP_OK) 10 false constructed) in
  init esp32 (answers taskA 5 true ESP_FAIL) 0 true w1 = (true, w1) ∧
  timeoutMs_ (self (snd (init esp32 (answers taskA 5 true ESP_FAIL) 0 true w1))) = 10000.
Proof.
  intros w1.
  destruct (init_idempotent esp32 (answers taskA 0 true ESP_OK)
              (answers taskA 5 true ESP_FAIL) 10 false 0 true constructed)
    as (Hsame & _ & Hms).
  - reflexivity.
  - split; [exact Hsame|].
    apply Hms; [reflexivity | unfold is_u32, UINT32_MAX; lia].
Defined.

Lemma init_rejects_out_of_range_witness :
  init esp32 (answers taskA 0 true ESP_OK) 3601 true constructed = (false, constructed) ∧
  init esp32 (answers taskA 0 true ESP_OK) 0 true constructed = (false, constructed).
Proof.
  split.
  - apply (init_rejects_out_of_range esp32 (answers taskA 0 true ESP_OK) 3601 true
             constructed); [reflexivity | right; lia].
  - apply (init_rejects_out_of_range esp32 (answers taskA 0 true ESP_OK) 0 true
             constructed); [reflexivity | left; reflexivity].
Defined.

Lemma init_adapter_outcomes_witness :
  (fst (init esp32 (answers taskA 0 true ESP_ERR_INVALID_STATE) 10 false constructed) = true ∧
   initialized_ (self (snd (init esp32 (answers taskA 0 true ESP_ERR_INVALID_STATE)
                              10 false constructed))) = true) ∧
  (fst (init esp32 (answers taskA 0 true ESP_FAIL) 10 false constructed) = false ∧
   initialized_ (self (snd (init esp32 (answers taskA 0 true ESP_FAIL)
                              10 false constructed))) = false).
Proof.
  split.
  - apply (init_adapter_outcomes esp32 (answers taskA 0 true ESP_ERR_INVALID_STATE) 10 false
             constructed); [reflexivity | lia | reflexivity].
  - apply (init_adapter_outcomes esp32 (answers taskA 0 true ESP_FAIL) 10 false
             constructed); [reflexivity | lia | discriminate | discriminate].
Defined.

Lemma w_init_reachable : reachable esp32 w_init.
Proof.
  unfold w_init. apply reachable_exec; [apply reachable_constructed|].
  cbn. unfold is_u32, UINT32_MAX. lia.
Defined.

Lemma feedIntervalMs_positive_witness :
  let env := answers taskA 0 true ESP_OK in
  (positive_intervals (self w_registered) ∧ 0 < timeoutMs_ (self w_registered) / 5) ∧
  (fst (registerCurrentTask esp32 env "A" true 0 w_init) = true ∧
   feedIntervalMs <$> registeredTasks_ (self (snd (registerCurrentTask esp32 env "A" true 0
                                                       w_init))) = [2000]) ∧
  (fst (registerCurrentTask esp32 env "A" true 1000 w_init) = true ∧
   feedIntervalMs <$> registeredTasks_ (self (snd (registerCurrentTask esp32 env "A" true 1000
                                                       w_init))) = [1000]).
Proof.
  intros env.
  destruct (feedIntervalMs_positive esp32 w_registered w_registered_reachable)
    as (Hpos & _ & Hdiv & _).
  destruct (feedIntervalMs_positive esp32 w_init w_init_reachable)
    as (_ & _ & _ & _ & _ & Hreg).
  split; [split; [exact Hpos | exact Hdiv]|].
  split.
  - destruct (Hreg env "A"%string true 0)
      as (Hok & e & Htasks & _ & _ & Hfi & _);
      [reflexivity | discriminate | reflexivity | reflexivity | reflexivity |].
    split; [exact Hok|]. rewrite Htasks. cbn. rewrite Hfi. reflexivity.
  - destruct (Hreg env "A"%string true 1000)
      as (Hok & e & Htasks & _ & _ & Hfi & _);
      [reflexivity | discriminate | reflexivity | reflexivity | reflexivity |].
    split; [exact Hok|]. rewrite Htasks. cbn. rewrite Hfi. reflexivity.
Defined.

Lemma register_twice_is_noop_witness :
  let env1 := answers taskA 0 true ESP_OK in
  let env2 := answers taskA 700 true ESP_OK in
  let w1 := snd (registerCurrentTask esp32 env1 "A" true 1000 w_init) in
  fst (registerCurrentTask esp32 env2 "A2" false 50 w1) = true ∧
  self (snd (registerCurrentTask esp32 env2 "A2" false 50 w1)) = self w1.
Proof.
  intros env1 env2 w1.
  destruct (register_twice_is_noop esp32 env1 env2 "A" true 1000 "A2" false 50 w_init)
    as (Hself & _ & _ & _ & Hok); try reflexivity.
  split; [apply Hok; reflexivity | exact Hself].
Defined.

Lemma feed_without_entry_tolerated_witness :
  fst (feed (answers taskB 10 true ESP_OK) w_registered) = true ∧
  self (snd (feed (answers taskB 10 true ESP_OK) w_registered)) = self w_registered.
Proof.
  destruct (feed_without_entry_tolerated (answers taskB 10 true ESP_OK) w_registered)
    as (Hok & Hself & _).
  - discriminate.
  - reflexivity.
  - split; [exact Hok | exact Hself].
Defined.

Lemma feed_without_identity_fails_witness :
  feed (answers NULL 10 true ESP_OK) w_registered = (false, w_registered).
Proof.
  exact (proj1 (feed_without_identity_fails (answers NULL 10 true ESP_OK) w_registered
                  eq_refl)).
Defined.

(** * More of the class: the paths the claims leave out *)

Section MoreRegistryFacts.

Context (pf : Platform).

(** ** [init] and [initWatchdogESPIDF] *)

Lemma seconds_in_ms s : 1 ≤ s ≤ 3600 → u32 (s * 1000) = s * 1000.
Proof. intros Hs. apply u32_small. unfold UINT32_MAX. lia. Qed.

Lemma init_fresh env s p w :
  initialized_ (self w) = false → 1 ≤ s ≤ 3600 →
  let armed := (esp_task_wdt_init_result env =? ESP_OK)
               || (esp_task_wdt_init_result env =? ESP_ERR_INVALID_STATE) in
  init pf env s p w =
    (armed,
     mkWorld (mkWatchdog armed (s * 1000) p (registeredTasks_ (self w)))
       (trace w ++
        [Store FTimeoutMs; Store FPanicOnTimeout;
         Wdt (WdtInit (if 5 <=? ESP_IDF_VERSION_MAJOR pf then s * 1000 else s) p)] ++
        (if armed then [Store FInitialized] else []))).
Proof.
  intros Hi Hs armed. subst armed.
  assert (Hin : (s =? 0) || (3600 <? s) = false) by (apply orb_false_iff; split; lia).
  unfold init, initWatchdogESPIDF. run. rewrite Hi, Hin, (seconds_in_ms s Hs).
  rewrite Z.div_mul by lia.
  destruct (5 <=? ESP_IDF_VERSION_MAJOR pf); cbn;
    destruct (esp_task_wdt_init_result env =? ESP_OK); cbn;
    try (rewrite <- !app_assoc; reflexivity);
    destruct (esp_task_wdt_init_result env =? ESP_ERR_INVALID_STATE); cbn;
    rewrite <- ?app_assoc, ?Hi; reflexivity.
Qed.

(** X1: a first [init] with 1 to 3600 seconds that the TWDT accepts
    ([ESP_OK], or [ESP_ERR_INVALID_STATE] for "armed by someone else")
    returns [true], stores the seconds times 1000 in [timeoutMs_] and the
    flag in [panicOnTimeout_], leaves the entries alone, and calls
    [esp_task_wdt_init] exactly once: with the milliseconds on ESP-IDF 5 and
    later, with the caller's seconds on the older API.  After it
    [isInitialized] answers [true] and [getTimeoutMs] the milliseconds. *)
Theorem init_arms_once env s p w :
  initialized_ (self w) = false → 1 ≤ s ≤ 3600 →
  esp_task_wdt_init_result env = ESP_OK ∨
  esp_task_wdt_init_result env = ESP_ERR_INVALID_STATE →
  let w' := snd (init pf env s p w) in
  fst (init pf env s p w) = true ∧
  self w' = mkWatchdog true (s * 1000) p (registeredTasks_ (self w)) ∧
  trace w' =
    trace w ++
    [Store FTimeoutMs; Store FPanicOnTimeout;
     Wdt (WdtInit (if 5 <=? ESP_IDF_VERSION_MAJOR pf then s * 1000 else s) p);
     Store FInitialized] ∧
  fst (isInitialized w') = true ∧ fst (getTimeoutMs w') = s * 1000.
Proof.
  intros Hi Hs Herr w'. subst w'. rewrite (init_fresh env s p w Hi Hs).
  assert (Ha : (esp_task_wdt_init_result env =? ESP_OK)
               || (esp_task_wdt_init_result env =? ESP_ERR_INVALID_STATE) = true).
  { apply orb_true_iff. destruct Herr as [-> | ->]; [left | right]; reflexivity. }
  rewrite Ha. cbn. auto.
Qed.

(** X2: a first [init] with 1 to 3600 seconds that the TWDT refuses (any
    answer but [ESP_OK] and [ESP_ERR_INVALID_STATE]) returns [false] and
    leaves [initialized_] false, but it has already overwritten [timeoutMs_]
    and [panicOnTimeout_] with the arguments of the failed call: [getTimeoutMs]
    reports the timeout that was never armed.  The entries are untouched. *)
Theorem init_failure_keeps_arguments env s p w :
  initialized_ (self w) = false → 1 ≤ s ≤ 3600 →
  esp_task_wdt_init_result env ≠ ESP_OK →
  esp_task_wdt_init_result env ≠ ESP_ERR_INVALID_STATE →
  let w' := snd (init pf env s p w) in
  fst (init pf env s p w) = false ∧
  self w' = mkWatchdog false (s * 1000) p (registeredTasks_ (self w)) ∧
  fst (isInitialized w') = false ∧ fst (getTimeoutMs w') = s * 1000 ∧
  wdt_calls (trace w') =
    wdt_calls (trace w) ++
    [WdtInit (if 5 <=? ESP_IDF_VERSION_MAJOR pf then s * 1000 else s) p].
Proof.
  intros Hi Hs Hok Hst w'. subst w'. rewrite (init_fresh env s p w Hi Hs).
  destruct (Z.eqb_spec (esp_task_wdt_init_result env) ESP_OK); [contradiction|].
  destruct (Z.eqb_spec (esp_task_wdt_init_result env) ESP_ERR_INVALID_STATE);
    [contradiction|].
  cbn. repeat split.
  generalize (trace w). intros tr. induction tr as [|e tr IH]; [reflexivity|].
  destruct e; cbn; now rewrite ?IH.
Qed.

Lemma wdt_calls_app a b : wdt_calls (a ++ b) = wdt_calls a ++ wdt_calls b.
Proof. induction a as [|e a IH]; [reflexivity|]. destruct e; cbn; now rewrite ?IH. Qed.

Lemma takes_app a b : takes (a ++ b) = (takes a + takes b)%nat.
Proof. induction a as [|e a IH]; [reflexivity|]. destruct e; cbn; now rewrite ?IH. Qed.

Lemma wdt_calls_deletes (l : list TaskInfo) :
  wdt_calls ((λ t, Wdt (WdtDelete (handle t))) <$> l) = (λ t, WdtDelete (handle t)) <$> l.
Proof. induction l as [|t l IH]; [reflexivity|]. cbn. now rewrite IH. Qed.

(** ** [deinit] *)

Lemma deinit_cases env w :
  deinit env w =
    if initialized_ (self w) then
      if xSemaphoreTake_ok env then
        (true,
         mkWorld (mkWatchdog false (timeoutMs_ (self w)) (panicOnTimeout_ (self w)) [])
           (trace w ++ [SemTake WaitMaxDelay true] ++
            ((λ t, Wdt (WdtDelete (handle t))) <$> registeredTasks_ (self w)) ++
            [Store FRegisteredTasks; SemGive; Store FInitialized]))
      else
        (true,
         mkWorld (mkWatchdog false (timeoutMs_ (self w)) (panicOnTimeout_ (self w))
                             (registeredTasks_ (self w)))
           (trace w ++ [SemTake WaitMaxDelay false; Store FInitialized]))
    else (true, w).
Proof.
  unfold deinit. run.
  destruct (initialized_ (self w)); cbn; [|reflexivity].
  destruct (xSemaphoreTake_ok env); cbn.
  - destruct (deinit_loop_spec env (registeredTasks_ (self w))
                (mkWorld (self w) (trace w ++ [SemTake WaitMaxDelay true]))) as [Hs Ht].
    cbn [self trace] in Hs, Ht. rewrite Hs, Ht. cbn.
    now rewrite <- !app_assoc.
  - now rewrite <- !app_assoc.
Qed.

(** X3: [deinit] on an initialized registry that obtains the mutex returns
    [true], removes every registered task from the TWDT (one
    [esp_task_wdt_delete] per entry, in the order of the entries, inside the
    critical section), empties the registry and then clears [initialized_];
    [timeoutMs_] and [panicOnTimeout_] keep their values.  Afterwards
    [getRegisteredTaskCount] reports 0. *)
Theorem deinit_unregisters_all env w :
  initialized_ (self w) = true → xSemaphoreTake_ok env = true →
  let w' := snd (deinit env w) in
  fst (deinit env w) = true ∧
  self w' = mkWatchdog false (timeoutMs_ (self w)) (panicOnTimeout_ (self w)) [] ∧
  trace w' =
    trace w ++ [SemTake WaitMaxDelay true] ++
    ((λ t, Wdt (WdtDelete (handle t))) <$> registeredTasks_ (self w)) ++
    [Store FRegisteredTasks; SemGive; Store FInitialized] ∧
  wdt_calls (trace w') =
    wdt_calls (trace w) ++ ((λ t, WdtDelete (handle t)) <$> registeredTasks_ (self w)) ∧
  (∀ env', fst (getRegisteredTaskCount env' w') = 0%nat).
Proof.
  intros Hi Hl w'. subst w'. rewrite deinit_cases, Hi, Hl. cbn [fst snd self trace].
  repeat split.
  - rewrite !wdt_calls_app, wdt_calls_deletes. cbn. now rewrite app_nil_r.
  - intros env'. rewrite getRegisteredTaskCount_value. cbn. now destruct (xSemaphoreTake_ok env').
Qed.

(** X4: [deinit] cannot fail and always ends uninitialized: it returns [true]
    and leaves [initialized_] false whatever the state and the answers of
    the platform, never changing [timeoutMs_] or [panicOnTimeout_].  On a
    registry that is not initialized it does nothing at all.  When the take
    of the mutex fails, the registry is marked uninitialized all the same,
    but its entries stay and no task is removed from the TWDT. *)
Theorem deinit_always_uninitializes env w :
  let w' := snd (deinit env w) in
  fst (deinit env w) = true ∧
  initialized_ (self w') = false ∧
  timeoutMs_ (self w') = timeoutMs_ (self w) ∧
  panicOnTimeout_ (self w') = panicOnTimeout_ (self w) ∧
  (initialized_ (self w) = false → w' = w) ∧
  (xSemaphoreTake_ok env = false →
   registeredTasks_ (self w') = registeredTasks_ (self w) ∧
   wdt_calls (trace w') = wdt_calls (trace w)).
Proof.
  intros w'. subst w'. rewrite deinit_cases.
  destruct (initialized_ (self w)) eqn:Hi; [destruct (xSemaphoreTake_ok env) eqn:Hl|];
    cbn [fst snd self trace initialized_ timeoutMs_ panicOnTimeout_ registeredTasks_].
  - repeat split; discriminate.
  - repeat split; try discriminate.
    rewrite wdt_calls_app. cbn. now rewrite app_nil_r.
  - repeat split; assumption.
Qed.

(** X5: [timeoutMs_] is fixed only until [deinit]: after any [deinit], an
    [init] with 1 to 3600 seconds that the TWDT accepts returns [true] and
    installs the new timeout and panic flag, whatever the ones before. *)
Theorem init_after_deinit env0 env s p w :
  1 ≤ s ≤ 3600 →
  esp_task_wdt_init_result env = ESP_OK ∨
  esp_task_wdt_init_result env = ESP_ERR_INVALID_STATE →
  let w1 := snd (deinit env0 w) in
  let w2 := snd (init pf env s p w1) in
  fst (init pf env s p w1) = true ∧
  initialized_ (self w2) = true ∧
  timeoutMs_ (self w2) = s * 1000 ∧
  panicOnTimeout_ (self w2) = p ∧
  registeredTasks_ (self w2) = registeredTasks_ (self w1).
Proof.
  intros Hs Herr w1 w2.
  assert (Hi : initialized_ (self w1) = false).
  { subst w1. rewrite deinit_cases.
    destruct (initialized_ (self w)) eqn:Hi; [destruct (xSemaphoreTake_ok env0)|];
      cbn; auto. }
  subst w2. rewrite (init_fresh env s p w1 Hi Hs).
  assert (Ha : (esp_task_wdt_init_result env =? ESP_OK)
               || (esp_task_wdt_init_result env =? ESP_ERR_INVALID_STATE) = true).
  { apply orb_true_iff. destruct Herr as [-> | ->]; [left | right]; reflexivity. }
  rewrite Ha. cbn. auto.
Qed.

(** ** [registerCurrentTask] *)

Lemma registerCurrentTask_guards env n c f w :
  initialized_ (self w) = false ∨ xTaskGetCurrentTaskHandle env = NULL →
  registerCurrentTask pf env n c f w = (false, w).
Proof.
  intros Hpre. unfold registerCurrentTask. run.
  destruct (initialized_ (self w)); [|reflexivity]. cbn.
  destruct Hpre as [Hi | ->]; [discriminate | reflexivity].
Qed.

(** X6: [registerCurrentTask] before a successful [init], or from a context
    without a current task handle, returns [false] and does nothing: no
    field is stored, the mutex is not taken and the TWDT is not called.  In
    particular nothing can be registered after a [deinit] until [init] is
    called again. *)
Theorem register_requires_init_and_identity env n c f w :
  initialized_ (self w) = false ∨ xTaskGetCurrentTaskHandle env = NULL →
  registerCurrentTask pf env n c f w = (false, w) ∧
  (∀ env0 w0, registerCurrentTask pf env n c f (snd (deinit env0 w0)) =
              (false, snd (deinit env0 w0))).
Proof.
  intros Hpre. split; [now apply registerCurrentTask_guards|].
  intros env0 w0. apply registerCurrentTask_guards. left.
  rewrite deinit_cases.
  destruct (initialized_ (self w0)) eqn:Hi; [destruct (xSemaphoreTake_ok env0)|];
    cbn; auto.
Qed.

Lemma register_with_twdt_exact env h w :
  snd (register_with_twdt env h w) =
    mkWorld (self w)
      (trace w ++
       Wdt (WdtStatus h) ::
       (if esp_task_wdt_status_result env h =? ESP_OK then []
        else if esp_task_wdt_status_result env h =? ESP_ERR_NOT_FOUND
             then [Wdt (WdtAdd h)] else [])).
Proof.
  unfold register_with_twdt. run.
  destruct (esp_task_wdt_status_result env h =? ESP_OK); cbn; [reflexivity|].
  destruct (esp_task_wdt_status_result env h =? ESP_ERR_NOT_FOUND); cbn;
    [now rewrite <- app_assoc | reflexivity].
Qed.

Lemma registerCurrentTask_exact env n c f w :
  initialized_ (self w) = true → xTaskGetCurrentTaskHandle env ≠ NULL →
  let h := xTaskGetCurrentTaskHandle env in
  let w0 := snd (register_with_twdt env h w) in
  registerCurrentTask pf env n c f w =
    if twdt_accepts env h then
      if xSemaphoreTake_ok env then
        match findTaskByHandle h (registeredTasks_ (self w)) with
        | Some _ =>
            (true, mkWorld (self w) (trace w0 ++ [SemTake WaitMaxDelay true; SemGive]))
        | None =>
            (true,
             mkWorld (with_tasks (self w)
                        (registeredTasks_ (self w) ++
                         [new_entry pf env (timeoutMs_ (self w)) h n c f]))
                     (trace w0 ++ [SemTake WaitMaxDelay true; Store FRegisteredTasks;
                                   SemGive; Wdt (WdtReset h)]))
        end
      else (false, mkWorld (self w) (trace w0 ++ [SemTake WaitMaxDelay false]))
    else (false, w0).
Proof.
  intros Hi Hh h w0. subst h w0.
  unfold registerCurrentTask. run. rewrite Hi. cbn.
  destruct (Z.eqb_spec (xTaskGetCurrentTaskHandle env) NULL); [contradiction|].
  destruct (register_with_twdt_value env (xTaskGetCurrentTaskHandle env) w) as [-> _].
  rewrite register_with_twdt_exact.
  destruct (twdt_accepts env _); cbn; [|reflexivity].
  destruct (xSemaphoreTake_ok env); cbn; [|reflexivity].
  destruct (findTaskByHandle _ _); cbn; now rewrite <- ?app_assoc.
Qed.

(** X7: when the TWDT does not accept the task ([esp_task_wdt_status] answers
    neither [ESP_OK] nor [ESP_ERR_NOT_FOUND], or it answers
    [ESP_ERR_NOT_FOUND] and [esp_task_wdt_add] fails), [registerCurrentTask]
    returns [false] before its own bookkeeping: the registry object is
    unchanged and the mutex is never asked for.  [esp_task_wdt_add] is
    called only after [ESP_ERR_NOT_FOUND]. *)
Theorem register_refused_by_twdt env n c f w :
  initialized_ (self w) = true → xTaskGetCurrentTaskHandle env ≠ NULL →
  twdt_accepts env (xTaskGetCurrentTaskHandle env) = false →
  let h := xTaskGetCurrentTaskHandle env in
  let w' := snd (registerCurrentTask pf env n c f w) in
  fst (registerCurrentTask pf env n c f w) = false ∧
  self w' = self w ∧
  trace w' =
    trace w ++
    Wdt (WdtStatus h) ::
    (if esp_task_wdt_status_result env h =? ESP_ERR_NOT_FOUND then [Wdt (WdtAdd h)] else []) ∧
  takes (trace w') = takes (trace w).
Proof.
  intros Hi Hh Ha h w'. subst h w'.
  rewrite (registerCurrentTask_exact env n c f w Hi Hh). cbn zeta. rewrite Ha.
  rewrite register_with_twdt_exact. cbn [fst snd self trace].
  unfold twdt_accepts in Ha. apply orb_false_iff in Ha as [Hok _]. rewrite Hok.
  repeat split.
  rewrite takes_app.
  destruct (esp_task_wdt_status_result env _ =? ESP_ERR_NOT_FOUND); cbn; lia.
Qed.

Lemma stale_at_last_feed now t : lastFeedTime t = now → stale pf now t = false.
Proof.
  intros <-. unfold stale. rewrite Z.sub_diag. change (u32 0) with 0.
  rewrite Z.mul_0_l. change (u32 0) with 0. apply Z.ltb_ge. apply u32_range.
Qed.

(** X8: a registration that succeeds for a task without an entry appends
    exactly one entry, after the existing ones, which keep their places: it
    carries the caller's handle, the name cut to the buffer, the current tick
    as [lastFeedTime], a zero [missedFeeds] and the criticality flag; the
    handle is found at the new last index, [getRegisteredTaskCount] grows by
    one, and the call ends by one [esp_task_wdt_reset] made after the mutex
    is given back. *)
Theorem register_appends_entry env n c f w :
  fst (registerCurrentTask pf env n c f w) = true →
  findTaskByHandle (xTaskGetCurrentTaskHandle env) (registeredTasks_ (self w)) = None →
  let h := xTaskGetCurrentTaskHandle env in
  let w' := snd (registerCurrentTask pf env n c f w) in
  let e := mkTaskInfo h (copy_name pf n) (xTaskGetTickCount env)
             (if 0 <? f then f else timeoutMs_ (self w) / 5) 0 c in
  registeredTasks_ (self w') = registeredTasks_ (self w) ++ [e] ∧
  findTaskByHandle h (registeredTasks_ (self w')) =
    Some (length (registeredTasks_ (self w)), e) ∧
  (∀ i t, registeredTasks_ (self w) !! i = Some t → registeredTasks_ (self w') !! i = Some t) ∧
  (∀ env', xSemaphoreTake_ok env' = true →
           fst (getRegisteredTaskCount env' w') = S (fst (getRegisteredTaskCount env' w))) ∧
  (∃ evs, trace w' = trace w ++ evs ++
            [SemTake WaitMaxDelay true; Store FRegisteredTasks; SemGive; Wdt (WdtReset h)] ∧
          Forall is_wdt evs).
Proof.
  intros Hok Hf h w' e.
  destruct (registerCurrentTask_true _ _ _ _ _ _ Hok) as (Hi & Hh & Ha & Hl).
  subst w'. rewrite (registerCurrentTask_exact env n c f w Hi Hh). cbn zeta.
  rewrite Ha, Hl, Hf. cbn [fst snd self trace registeredTasks_ with_tasks].
  fold h. change (new_entry pf env (timeoutMs_ (self w)) h n c f) with e.
  split; [reflexivity|].
  split; [now apply findTaskByHandle_appended|].
  split; [intros i t Hi'; now apply lookup_app_l_Some|].
  split.
  { intros env' Hl'. rewrite !getRegisteredTaskCount_value, Hl'. cbn.
    rewrite length_app. cbn. lia. }
  destruct (register_with_twdt_trace env h w) as (evs & -> & Hevs).
  exists evs. split; [now rewrite <- app_assoc | exact Hevs].
Qed.

(** X9: registration cannot make the task look stale: a [checkHealth] that
    obtains the mutex at the tick of a registration that appended an entry
    does not count the new
    entry and leaves its [missedFeeds] at 0; it returns what it would have
    returned without the registration. *)
Theorem register_then_checkHealth env env' n c f w :
  fst (registerCurrentTask pf env n c f w) = true →
  findTaskByHandle (xTaskGetCurrentTaskHandle env) (registeredTasks_ (self w)) = None →
  xSemaphoreTake_ok env' = true →
  xTaskGetTickCount env' = xTaskGetTickCount env →
  let w' := snd (registerCurrentTask pf env n c f w) in
  let e := new_entry pf env (timeoutMs_ (self w)) (xTaskGetCurrentTaskHandle env) n c f in
  stale pf (xTaskGetTickCount env') e = false ∧
  fst (checkHealth pf env' w') = fst (checkHealth pf env' w) ∧
  registeredTasks_ (self (snd (checkHealth pf env' w')))
    !! length (registeredTasks_ (self w)) = Some e.
Proof.
  intros Hok Hf Hl' Htick w' e.
  destruct (registerCurrentTask_true _ _ _ _ _ _ Hok) as (Hi & Hh & Ha & Hl).
  destruct (registerCurrentTask_accepted pf env n c f w Hi Hh Ha Hl) as [_ Hs].
  rewrite Hf in Hs. fold w' e in Hs.
  assert (Hst : stale pf (xTaskGetTickCount env') e = false)
    by (apply stale_at_last_feed; now rewrite Htick).
  destruct (checkHealth_locked pf env' w' Hl') as [Hc' Hs'].
  destruct (checkHealth_locked pf env' w Hl') as [Hc _].
  split; [exact Hst|]. split.
  - rewrite Hc', Hc, Hs. cbn [registeredTasks_ with_tasks].
    rewrite List.filter_app, length_app. cbn. rewrite Hst. cbn. lia.
  - rewrite Hs', Hs. cbn [registeredTasks_ with_tasks].
    rewrite fmap_app, lookup_app_r by (rewrite length_fmap; lia).
    rewrite length_fmap, Nat.sub_diag. cbn. unfold scanned. now rewrite Hst.
Qed.

(** ** Task names: [strncpy] on registration, [strncmp] on lookup *)

Lemma length_substring0 k s :
  String.length (String.substring 0 k s) = Nat.min k (String.length s).
Proof.
  revert s. induction k as [|k IH]; intros s; [now destruct s|].
  destruct s as [|ch s]; [reflexivity|]. cbn. now rewrite IH.
Qed.

Lemma substring0_all k s : (String.length s ≤ k)%nat → String.substring 0 k s = s.
Proof.
  revert s. induction k as [|k IH]; intros s Hs.
  - destruct s; [reflexivity | cbn in Hs; lia].
  - destruct s as [|ch s]; [reflexivity|]. cbn in *. rewrite IH by lia. reflexivity.
Qed.

Lemma prefix_substring0 k s : String.prefix (String.substring 0 k s) s = true.
Proof.
  revert s. induction k as [|k IH]; intros s; [now destruct s|].
  destruct s as [|ch s]; [reflexivity|]. cbn.
  destruct (Ascii.ascii_dec ch ch); [apply IH | contradiction].
Qed.

(** X10: the name an entry stores.  On an initialized registry, when a
    task with a handle and without an entry registers under a name, the TWDT
    accepts it and the mutex is obtained, the entry that [registerCurrentTask]
    appends, and that [findTaskByHandle] then returns for the task, carries
    the beginning of that name, cut to [MAX_TASK_NAME_LEN - 1] characters: a
    name that fits is stored whole, and of a name of [MAX_TASK_NAME_LEN]
    characters or more exactly the first [MAX_TASK_NAME_LEN - 1] are kept, so
    that the stored name differs from the one given. *)
Theorem stored_name_is_truncated env n c f w :
  (1 ≤ MAX_TASK_NAME_LEN pf)%nat →
  initialized_ (self w) = true →
  xTaskGetCurrentTaskHandle env ≠ NULL →
  twdt_accepts env (xTaskGetCurrentTaskHandle env) = true →
  xSemaphoreTake_ok env = true →
  findTaskByHandle (xTaskGetCurrentTaskHandle env) (registeredTasks_ (self w)) = None →
  let w' := snd (registerCurrentTask pf env n c f w) in
  fst (registerCurrentTask pf env n c f w) = true ∧
  ∃ e,
    findTaskByHandle (xTaskGetCurrentTaskHandle env) (registeredTasks_ (self w')) =
      Some (length (registeredTasks_ (self w)), e) ∧
    registeredTasks_ (self w') !! length (registeredTasks_ (self w)) = Some e ∧
    String.length (name e) = Nat.min (String.length n) (MAX_TASK_NAME_LEN pf - 1) ∧
    String.prefix (name e) n = true ∧
    ((String.length n ≤ MAX_TASK_NAME_LEN pf - 1)%nat → name e = n) ∧
    ((MAX_TASK_NAME_LEN pf ≤ String.length n)%nat →
     String.length (name e) = (MAX_TASK_NAME_LEN pf - 1)%nat ∧ name e ≠ n).
Proof.
  intros Hmax Hi Hh Ha Hl Hf w'.
  destruct (registerCurrentTask_accepted pf env n c f w Hi Hh Ha Hl) as [Hok Hs].
  rewrite Hf in Hs. fold w' in Hs. split; [exact Hok|].
  exists (new_entry pf env (timeoutMs_ (self w)) (xTaskGetCurrentTaskHandle env) n c f).
  rewrite Hs. cbn [registeredTasks_ with_tasks].
  split; [now apply findTaskByHandle_appended|].
  split; [now rewrite lookup_app_r, Nat.sub_diag by lia|].
  unfold new_entry, copy_name. cbn [name].
  split; [rewrite length_substring0; lia|].
  split; [apply prefix_substring0|].
  split; [apply substring0_all|].
  intros Hlong. split; [rewrite length_substring0; lia|].
  intros Heq. apply (f_equal String.length) in Heq.
  rewrite length_substring0 in Heq. lia.
Qed.

Lemma find_first {A} (p : A → bool) (l : list A) :
  match List.find p l with
  | Some t =>
      ∃ i, l !! i = Some t ∧ p t = true ∧
           ∀ j u, (j < i)%nat → l !! j = Some u → p u = false
  | None => Forall (λ u, p u = false) l
  end.
Proof.
  induction l as [|a l IH]; cbn; [constructor|].
  destruct (p a) eqn:Hp.
  - exists 0%nat. repeat split; [exact Hp|]. intros j u Hj. lia.
  - destruct (List.find p l) as [t|].
    + destruct IH as (i & Hi & Ht & Hbefore). exists (S i). repeat split; auto.
      intros [|j] u Hj Hu; cbn in Hu; [congruence|]. apply (Hbefore j u); [lia | exact Hu].
    + now constructor.
Qed.

Lemma find_none_all {A} (p : A → bool) (l : list A) :
  Forall (λ u, p u = false) l → List.find p l = None.
Proof. induction 1 as [|a l Ha _ IH]; [reflexivity|]. cbn. now rewrite Ha. Qed.

Lemma find_appended {A} (p : A → bool) (l : list A) (e : A) :
  Forall (λ u, p u = false) l → p e = true → List.find p (l ++ [e]) = Some e.
Proof.
  intros Hl He. induction Hl as [|a l Ha _ IH]; cbn; [now rewrite He|]. now rewrite Ha.
Qed.

Lemma getTaskInfo_cases env n w :
  getTaskInfo pf env n w =
    match n with
    | None => (None, w)
    | Some taskName =>
        if xSemaphoreTake_ok env then
          (List.find (λ t, same_name pf t taskName) (registeredTasks_ (self w)),
           mkWorld (self w) (trace w ++ [SemTake WaitTicks10ms true; SemGive]))
        else (None, mkWorld (self w) (trace w ++ [SemTake WaitTicks10ms false]))
    end.
Proof.
  unfold getTaskInfo. destruct n as [taskName|]; [|reflexivity]. run.
  destruct (xSemaphoreTake_ok env); cbn; [|reflexivity].
  destruct (List.find _ _); cbn; now rewrite <- app_assoc.
Qed.

(** X11: [getTaskInfo] is a read: the registry object is never changed and
    the TWDT never called.  With a null name it returns "not found" without
    asking for the mutex; when the take of the mutex times out it returns "not
    found" whatever is registered; otherwise it returns a copy of the first
    entry, in registration order, whose name agrees with the given one on
    the first [MAX_TASK_NAME_LEN] characters, and "not found" only when no
    entry does. *)
Theorem getTaskInfo_first_match env n w :
  let r := getTaskInfo pf env n w in
  self (snd r) = self w ∧
  wdt_calls (trace (snd r)) = wdt_calls (trace w) ∧
  (n = None → r = (None, w)) ∧
  (xSemaphoreTake_ok env = false → fst r = None) ∧
  (∀ taskName, n = Some taskName → xSemaphoreTake_ok env = true →
     match fst r with
     | Some t =>
         ∃ i, registeredTasks_ (self w) !! i = Some t ∧ same_name pf t taskName = true ∧
              ∀ j u, (j < i)%nat → registeredTasks_ (self w) !! j = Some u →
                     same_name pf u taskName = false
     | None => Forall (λ u, same_name pf u taskName = false) (registeredTasks_ (self w))
     end).
Proof.
  intros r. subst r. rewrite getTaskInfo_cases.
  destruct n as [taskName|]; [destruct (xSemaphoreTake_ok env) eqn:Hl|];
    cbn [fst snd self trace].
  - repeat split; try discriminate.
    + rewrite wdt_calls_app. cbn. now rewrite app_nil_r.
    + intros tn [= <-] _. apply find_first.
  - repeat split; try discriminate.
    rewrite wdt_calls_app. cbn. now rewrite app_nil_r.
  - repeat split; discriminate.
Qed.

Lemma same_name_short t n :
  name t = n → same_name pf t n = true.
Proof. intros Hn. unfold same_name. rewrite Hn. apply String.eqb_refl. Qed.

(** X12: registration and lookup agree on names that fit: after a
    registration that appended an entry under a name of at most
    [MAX_TASK_NAME_LEN - 1] characters which no earlier entry matches,
    [getTaskInfo] with that name (and the mutex) returns that entry: the
    caller's handle, the name, the tick of registration, the interval,
    [missedFeeds = 0] and the criticality flag. *)
Theorem register_then_getTaskInfo env env' n c f w :
  fst (registerCurrentTask pf env n c f w) = true →
  findTaskByHandle (xTaskGetCurrentTaskHandle env) (registeredTasks_ (self w)) = None →
  (String.length n ≤ MAX_TASK_NAME_LEN pf - 1)%nat →
  Forall (λ u, same_name pf u n = false) (registeredTasks_ (self w)) →
  xSemaphoreTake_ok env' = true →
  fst (getTaskInfo pf env' (Some n) (snd (registerCurrentTask pf env n c f w))) =
    Some (mkTaskInfo (xTaskGetCurrentTaskHandle env) n (xTaskGetTickCount env)
            (if 0 <? f then f else timeoutMs_ (self w) / 5) 0 c).
Proof.
  intros Hok Hf Hlen Hfresh Hl'.
  destruct (registerCurrentTask_true _ _ _ _ _ _ Hok) as (Hi & Hh & Ha & Hl).
  destruct (registerCurrentTask_accepted pf env n c f w Hi Hh Ha Hl) as [_ Hs].
  rewrite Hf in Hs.
  rewrite getTaskInfo_cases, Hl'. cbn [fst]. rewrite Hs. cbn [registeredTasks_ with_tasks].
  unfold new_entry, copy_name. rewrite (substring0_all _ n Hlen).
  apply find_appended; [exact Hfresh|]. now apply same_name_short.
Qed.

(** ** Well-formed entries, in every reachable world *)

Lemma entry_wf_new env tm h n c f : h ≠ NULL → entry_wf pf (new_entry pf env tm h n c f).
Proof.
  intros Hh. unfold entry_wf, new_entry, copy_name. cbn.
  split; [exact Hh|]. split; [rewrite length_substring0; lia|].
  unfold is_u32, UINT32_MAX. lia.
Qed.

Lemma entry_wf_fed now t : entry_wf pf t → entry_wf pf (fed now t).
Proof.
  intros (Hh & Hn & _). unfold entry_wf, fed. cbn.
  repeat split; try assumption; unfold UINT32_MAX; lia.
Qed.

Lemma entry_wf_scanned now t : entry_wf pf t → entry_wf pf (scanned pf now t).
Proof.
  intros (Hh & Hn & Hm). unfold scanned. destruct (stale pf now t); [|exact (conj Hh (conj Hn Hm))].
  unfold entry_wf, missed. cbn. repeat split; try assumption; apply u32_range.
Qed.

Lemma exec_entry_wf env op w :
  Forall (entry_wf pf) (registeredTasks_ (self w)) →
  Forall (entry_wf pf) (registeredTasks_ (self (exec pf env op w))).
Proof.
  intros Hw. destruct op as [s p| |n c f| |h n| | |n|]; cbn [exec].
  - destruct (init_self pf env s p w) as [-> _]. exact Hw.
  - destruct (deinit_self env w) as [_ [-> | ->]]; [exact Hw | constructor].
  - destruct (initialized_ (self w)) eqn:Hi;
      [|now rewrite registerCurrentTask_guards by now left].
    destruct (Z.eq_dec (xTaskGetCurrentTaskHandle env) NULL) as [Hh|Hh];
      [now rewrite registerCurrentTask_guards by now right|].
    rewrite (registerCurrentTask_exact env n c f w Hi Hh). cbn zeta.
    destruct (twdt_accepts env _); [|now rewrite register_with_twdt_exact].
    destruct (xSemaphoreTake_ok env); [|exact Hw].
    destruct (findTaskByHandle _ _); [exact Hw|].
    cbn [snd self registeredTasks_ with_tasks].
    apply Forall_app. split; [exact Hw|]. constructor; [now apply entry_wf_new | constructor].
  - destruct (unregisterCurrentTask_self env w) as [-> | ->]; [exact Hw|].
    cbn [registeredTasks_ with_tasks]. unfold remove_handle.
    apply Forall_forall. intros t Ht. apply list_elem_of_filter in Ht as [_ Ht].
    rewrite Forall_forall in Hw. now apply Hw.
  - destruct (unregisterTaskByHandle_self env h n w) as [-> | ->]; [exact Hw|].
    cbn [registeredTasks_ with_tasks]. unfold remove_handle.
    apply Forall_forall. intros t Ht. apply list_elem_of_filter in Ht as [_ Ht].
    rewrite Forall_forall in Hw. now apply Hw.
  - destruct (feed_self env w) as [-> | [i ->]]; [exact Hw|].
    cbn [registeredTasks_ with_tasks]. apply Forall_alter; [exact Hw|].
    intros t _ Ht. now apply entry_wf_fed.
  - now rewrite getRegisteredTaskCount_self.
  - now rewrite getTaskInfo_self.
  - destruct (xSemaphoreTake_ok env) eqn:Hl.
    + destruct (checkHealth_locked pf env w Hl) as [_ ->].
      cbn [registeredTasks_ with_tasks]. apply Forall_fmap.
      eapply Forall_impl; [exact Hw|]. intros t Ht. now apply entry_wf_scanned.
    + destruct (checkHealth_locked_out pf env w Hl) as [_ ->]. exact Hw.
Qed.

Lemma reachable_entry_wf w :
  reachable pf w → Forall (entry_wf pf) (registeredTasks_ (self w)).
Proof.
  induction 1 as [|env op w _ IH _]; [constructor | now apply exec_entry_wf].
Qed.

(** X13: in every world the registry can reach there is at most one entry
    per task handle, no entry has a null handle, every stored name fits the
    name buffer with its terminator, and every [missedFeeds] is a [uint32_t]
    value. *)
Theorem reachable_entries_well_formed w :
  reachable pf w →
  NoDup (handle <$> registeredTasks_ (self w)) ∧
  Forall (λ t, handle t ≠ NULL) (registeredTasks_ (self w)) ∧
  Forall (λ t, (String.length (name t) ≤ MAX_TASK_NAME_LEN pf - 1)%nat)
         (registeredTasks_ (self w)) ∧
  Forall (λ t, is_u32 (missedFeeds t)) (registeredTasks_ (self w)).
Proof.
  intros Hr. split; [exact (reachable_one_entry_per_handle pf w Hr)|].
  pose proof (reachable_entry_wf w Hr) as Hwf.
  repeat split; (eapply Forall_impl; [exact Hwf|]); intros t (Hh & Hn & Hm); assumption.
Qed.

Lemma same_name_long t n :
  (1 ≤ MAX_TASK_NAME_LEN pf)%nat →
  (String.length (name t) ≤ MAX_TASK_NAME_LEN pf - 1)%nat →
  (MAX_TASK_NAME_LEN pf ≤ String.length n)%nat →
  same_name pf t n = false.
Proof.
  intros Hmax Ht Hn. unfold same_name. apply String.eqb_neq. intros Heq.
  apply (f_equal String.length) in Heq. rewrite !length_substring0 in Heq. lia.
Qed.

(** X14: a name of [MAX_TASK_NAME_LEN] characters or more is never found:
    registration keeps one character less than the lookup compares, so in
    every reachable world [getTaskInfo] with such a name returns "not found",
    also for a task that registered under exactly that name. *)
Theorem getTaskInfo_long_name_not_found env n w :
  reachable pf w →
  (1 ≤ MAX_TASK_NAME_LEN pf)%nat →
  (MAX_TASK_NAME_LEN pf ≤ String.length n)%nat →
  fst (getTaskInfo pf env (Some n) w) = None.
Proof.
  intros Hr Hmax Hn. rewrite getTaskInfo_cases.
  destruct (xSemaphoreTake_ok env); [|reflexivity]. cbn [fst].
  apply find_none_all. eapply Forall_impl; [exact (reachable_entry_wf w Hr)|].
  intros t (_ & Ht & _). now apply same_name_long.
Qed.

(** ** [unregisterTaskByHandle] and [unregisterCurrentTask] *)

Lemma unregisterTaskByHandle_exact env h n w :
  h ≠ NULL →
  unregisterTaskByHandle env h n w =
    if negb (esp_task_wdt_delete_result env h =? ESP_OK)
       && negb (esp_task_wdt_delete_result env h =? ESP_ERR_NOT_FOUND)
    then (false, mkWorld (self w) (trace w ++ [Wdt (WdtDelete h)]))
    else if xSemaphoreTake_ok env then
      match findTaskByHandle h (registeredTasks_ (self w)) with
      | Some _ =>
          (true,
           mkWorld (with_tasks (self w) (remove_handle h (registeredTasks_ (self w))))
             (trace w ++ [Wdt (WdtDelete h); SemTake WaitMaxDelay true;
                          Store FRegisteredTasks; SemGive]))
      | None =>
          (true,
           mkWorld (self w)
             (trace w ++ [Wdt (WdtDelete h); SemTake WaitMaxDelay true; SemGive]))
      end
    else (true, mkWorld (self w) (trace w ++ [Wdt (WdtDelete h); SemTake WaitMaxDelay false])).
Proof.
  intros Hh. unfold unregisterTaskByHandle.
  destruct (Z.eqb_spec h NULL); [contradiction|]. run.
  destruct (negb _ && negb _); cbn; [reflexivity|].
  destruct (xSemaphoreTake_ok env); cbn; [|now rewrite <- !app_assoc].
  destruct (findTaskByHandle _ _); cbn; now rewrite <- !app_assoc.
Qed.

(** X15: the failures of unregistration.  [unregisterTaskByHandle] with a
    null handle returns [false] and does nothing; when [esp_task_wdt_delete]
    answers anything but [ESP_OK] and [ESP_ERR_NOT_FOUND] it returns [false]
    with the entry still registered and the mutex never asked for.
    [unregisterCurrentTask] returns [false] without a current task handle and
    is [unregisterTaskByHandle] on the caller's handle otherwise. *)
Theorem unregister_failures env h n w :
  (h = NULL → unregisterTaskByHandle env h n w = (false, w)) ∧
  (h ≠ NULL →
   esp_task_wdt_delete_result env h ≠ ESP_OK →
   esp_task_wdt_delete_result env h ≠ ESP_ERR_NOT_FOUND →
   unregisterTaskByHandle env h n w =
     (false, mkWorld (self w) (trace w ++ [Wdt (WdtDelete h)]))) ∧
  (xTaskGetCurrentTaskHandle env = NULL → unregisterCurrentTask env w = (false, w)) ∧
  (xTaskGetCurrentTaskHandle env ≠ NULL →
   unregisterCurrentTask env w =
     unregisterTaskByHandle env (xTaskGetCurrentTaskHandle env) None w).
Proof.
  split; [|split; [|split]].
  - intros ->. reflexivity.
  - intros Hh Hok Hnf. rewrite (unregisterTaskByHandle_exact env h n w Hh).
    destruct (Z.eqb_spec (esp_task_wdt_delete_result env h) ESP_OK); [contradiction|].
    destruct (Z.eqb_spec (esp_task_wdt_delete_result env h) ESP_ERR_NOT_FOUND);
      [contradiction | reflexivity].
  - intros Hh. unfold unregisterCurrentTask. now rewrite Hh.
  - intros Hh. unfold unregisterCurrentTask.
    destruct (Z.eqb_spec (xTaskGetCurrentTaskHandle env) NULL); [contradiction | reflexivity].
Qed.

Lemma findTaskByHandle_cons h a l :
  findTaskByHandle h (a :: l) =
    if decide (handle a = h) then Some (0%nat, a)
    else prod_map S id <$> findTaskByHandle h l.
Proof. reflexivity. Qed.

Lemma remove_handle_found h l :
  ∀ i t, NoDup (handle <$> l) → findTaskByHandle h l = Some (i, t) →
         remove_handle h l = delete i l.
Proof.
  induction l as [|a l IH]; intros i t Hnd Hf; [discriminate|].
  rewrite findTaskByHandle_cons in Hf. rewrite fmap_cons in Hnd.
  apply NoDup_cons in Hnd as [Hnotin Hnd].
  unfold remove_handle in *. destruct (decide (handle a = h)) as [Ha|Ha].
  - injection Hf as <- <-. rewrite filter_cons_False by (intros Hn; now apply Hn).
    cbn. apply remove_handle_absent, Forall_forall. intros u Hu Heq.
    apply Hnotin. rewrite Ha, <- Heq. now apply list_elem_of_fmap_2.
  - destruct (findTaskByHandle h l) as [[j u]|] eqn:Hfl; [|discriminate].
    cbn in Hf. injection Hf as <- <-.
    rewrite filter_cons_True by exact Ha. cbn. f_equal. now apply (IH j u).
Qed.

Lemma unregisterTaskByHandle_done env h n w :
  h ≠ NULL →
  esp_task_wdt_delete_result env h = ESP_OK ∨
  esp_task_wdt_delete_result env h = ESP_ERR_NOT_FOUND →
  xSemaphoreTake_ok env = true →
  fst (unregisterTaskByHandle env h n w) = true ∧
  self (snd (unregisterTaskByHandle env h n w)) =
    with_tasks (self w) (remove_handle h (registeredTasks_ (self w))) ∧
  wdt_calls (trace (snd (unregisterTaskByHandle env h n w))) =
    wdt_calls (trace w) ++ [WdtDelete h].
Proof.
  intros Hh Hdel Hl. rewrite (unregisterTaskByHandle_exact env h n w Hh), Hl.
  assert (Hg : negb (esp_task_wdt_delete_result env h =? ESP_OK)
               && negb (esp_task_wdt_delete_result env h =? ESP_ERR_NOT_FOUND) = false).
  { destruct Hdel as [-> | ->]; reflexivity. }
  rewrite Hg.
  destruct (findTaskByHandle h (registeredTasks_ (self w))) as [[i t]|] eqn:Hf;
    cbn [fst snd self trace]; rewrite wdt_calls_app; cbn; repeat split.
  apply findTaskByHandle_None in Hf.
  now rewrite (remove_handle_absent h _ Hf), with_tasks_same.
Qed.

(** X16: an unregistration that the TWDT lets through ([ESP_OK], or
    [ESP_ERR_NOT_FOUND] for a task the TWDT never had) and that obtains the
    mutex returns [true], whether or not the registry is initialized and
    whether or not the handle had an entry.  Afterwards the handle has no
    entry; entries of other handles are kept, in their order; with one entry
    per handle exactly the entry found is deleted; without an entry the
    registry object is unchanged.  The TWDT is called once, to delete the
    task. *)
Theorem unregister_removes_entry env h n w :
  h ≠ NULL →
  esp_task_wdt_delete_result env h = ESP_OK ∨
  esp_task_wdt_delete_result env h = ESP_ERR_NOT_FOUND →
  xSemaphoreTake_ok env = true →
  let w' := snd (unregisterTaskByHandle env h n w) in
  fst (unregisterTaskByHandle env h n w) = true ∧
  findTaskByHandle h (registeredTasks_ (self w')) = None ∧
  registeredTasks_ (self w') = filter (λ t, handle t ≠ h) (registeredTasks_ (self w)) ∧
  (∀ i t, NoDup (handle <$> registeredTasks_ (self w)) →
          findTaskByHandle h (registeredTasks_ (self w)) = Some (i, t) →
          registeredTasks_ (self w') = delete i (registeredTasks_ (self w))) ∧
  (findTaskByHandle h (registeredTasks_ (self w)) = None → self w' = self w) ∧
  initialized_ (self w') = initialized_ (self w) ∧
  timeoutMs_ (self w') = timeoutMs_ (self w) ∧
  wdt_calls (trace w') = wdt_calls (trace w) ++ [WdtDelete h].
Proof.
  intros Hh Hdel Hl w'.
  destruct (unregisterTaskByHandle_done env h n w Hh Hdel Hl) as (Hok & Hs & Ht).
  fold w' in Hs, Ht. rewrite Hs. cbn [registeredTasks_ with_tasks initialized_ timeoutMs_].
  split; [exact Hok|].
  split; [apply findTaskByHandle_removed|].
  split; [reflexivity|].
  split; [intros i t Hnd Hf; now apply (remove_handle_found h _ i t)|].
  split; [|repeat split; exact Ht].
  intros Hf. apply findTaskByHandle_None in Hf.
  now rewrite (remove_handle_absent h _ Hf), with_tasks_same.
Qed.

(** X17: registering and unregistering undo each other on the registry
    object: when a task without an entry registers successfully and is then
    unregistered (TWDT lets it through, mutex obtained), the registry object
    is again what it was before the registration; and a second
    unregistration changes nothing more. *)
Theorem register_then_unregister env1 env2 env3 n c f m w :
  fst (registerCurrentTask pf env1 n c f w) = true →
  findTaskByHandle (xTaskGetCurrentTaskHandle env1) (registeredTasks_ (self w)) = None →
  let h := xTaskGetCurrentTaskHandle env1 in
  (esp_task_wdt_delete_result env2 h = ESP_OK ∨
   esp_task_wdt_delete_result env2 h = ESP_ERR_NOT_FOUND) →
  xSemaphoreTake_ok env2 = true →
  let w1 := snd (registerCurrentTask pf env1 n c f w) in
  let w2 := snd (unregisterTaskByHandle env2 h m w1) in
  self w2 = self w ∧
  self (snd (unregisterTaskByHandle env3 h m w2)) = self w2.
Proof.
  intros Hok Hf h Hdel Hl w1 w2.
  destruct (registerCurrentTask_true _ _ _ _ _ _ Hok) as (Hi & Hh & Ha & Hl1).
  destruct (registerCurrentTask_accepted pf env1 n c f w Hi Hh Ha Hl1) as [_ Hs1].
  rewrite Hf in Hs1. fold w1 h in Hs1.
  destruct (unregisterTaskByHandle_done env2 h m w1 Hh Hdel Hl) as (_ & Hs2 & _).
  fold w2 in Hs2.
  assert (Hback : self w2 = self w).
  { rewrite Hs2, Hs1. cbn [registeredTasks_ with_tasks]. unfold remove_handle.
    rewrite filter_app, filter_cons_False, filter_nil, app_nil_r
      by (intros Hn; now apply Hn).
    apply findTaskByHandle_None in Hf.
    fold (remove_handle h (registeredTasks_ (self w))).
    rewrite (remove_handle_absent h _ Hf). unfold with_tasks. cbn. now destruct (self w). }
  split; [exact Hback|].
  destruct (unregisterTaskByHandle_self env3 h m w2) as [-> | ->]; [reflexivity|].
  rewrite Hback. apply findTaskByHandle_None in Hf.
  now rewrite (remove_handle_absent h _ Hf), with_tasks_same.
Qed.

(** ** [feed] and [updateFeedTime] *)

Lemma feed_exact env w :
  xTaskGetCurrentTaskHandle env ≠ NULL →
  let h := xTaskGetCurrentTaskHandle env in
  let ping :=
    Wdt (WdtStatus h) ::
    (if esp_task_wdt_status_result env h =? ESP_OK then [Wdt (WdtReset h)] else []) in
  feed env w =
    if xSemaphoreTake_ok env then
      match findTaskByHandle h (registeredTasks_ (self w)) with
      | Some (i, _) =>
          (true,
           mkWorld (with_tasks (self w)
                      (alter (fed (xTaskGetTickCount env)) i (registeredTasks_ (self w))))
             (trace w ++ [SemTake WaitTicks10ms true; Store FRegisteredTasks; SemGive] ++ ping))
      | None =>
          (true, mkWorld (self w) (trace w ++ [SemTake WaitTicks10ms true; SemGive] ++ ping))
      end
    else (true, mkWorld (self w) (trace w ++ [SemTake WaitTicks10ms false] ++ ping)).
Proof.
  intros Hh h ping. subst h ping. unfold feed.
  destruct (Z.eqb_spec (xTaskGetCurrentTaskHandle env) NULL); [contradiction|]. run.
  destruct (xSemaphoreTake_ok env); cbn;
    [destruct (findTaskByHandle _ _) as [[i t]|]; cbn|];
    destruct (esp_task_wdt_status_result env _ =? ESP_OK); cbn;
    now rewrite <- !app_assoc.
Qed.

Lemma findTaskByHandle_alter h f i t l :
  findTaskByHandle h l = Some (i, t) → handle (f t) = handle t →
  findTaskByHandle h (alter f i l) = Some (i, f t).
Proof.
  intros Hf Hpres. destruct (findTaskByHandle_Some _ _ _ _ Hf) as (Hi & Hh & Hbefore).
  unfold findTaskByHandle. apply list_find_Some.
  split; [now rewrite list_lookup_alter_eq, Hi|].
  split; [unfold has_handle; now rewrite Hpres|].
  intros j u Hj Hlt. rewrite list_lookup_alter_ne in Hj by lia.
  now apply (Hbefore j u).
Qed.

(** X18: a [feed] that updates the caller's entry touches nothing else: the
    entry keeps its handle, name, interval and criticality and gets the
    current tick and a zero counter; every other entry, the number and order
    of the entries, and [initialized_], [timeoutMs_] and [panicOnTimeout_]
    are as before; the handle is still found at the same index. *)
Theorem feed_changes_only_own_entry env w i t :
  xTaskGetCurrentTaskHandle env ≠ NULL → xSemaphoreTake_ok env = true →
  findTaskByHandle (xTaskGetCurrentTaskHandle env) (registeredTasks_ (self w)) = Some (i, t) →
  let w' := snd (feed env w) in
  registeredTasks_ (self w') !! i =
    Some (mkTaskInfo (handle t) (name t) (xTaskGetTickCount env) (feedIntervalMs t) 0
                     (isCritical t)) ∧
  (∀ j, j ≠ i → registeredTasks_ (self w') !! j = registeredTasks_ (self w) !! j) ∧
  length (registeredTasks_ (self w')) = length (registeredTasks_ (self w)) ∧
  handle <$> registeredTasks_ (self w') = handle <$> registeredTasks_ (self w) ∧
  findTaskByHandle (xTaskGetCurrentTaskHandle env) (registeredTasks_ (self w')) =
    Some (i, fed (xTaskGetTickCount env) t) ∧
  initialized_ (self w') = initialized_ (self w) ∧
  timeoutMs_ (self w') = timeoutMs_ (self w) ∧
  panicOnTimeout_ (self w') = panicOnTimeout_ (self w).
Proof.
  intros Hh Hl Hf w'. subst w'. rewrite (feed_present env w i t Hh Hl Hf).
  cbn [registeredTasks_ with_tasks initialized_ timeoutMs_ panicOnTimeout_].
  destruct (findTaskByHandle_Some _ _ _ _ Hf) as (Hi & _ & _).
  split; [now rewrite list_lookup_alter_eq, Hi|].
  split; [intros j Hj; now apply list_lookup_alter_ne|].
  split; [apply length_alter|].
  split.
  { erewrite list_fmap_alter with (h := id); [now rewrite list_alter_id|].
    apply Forall_forall. intros; reflexivity. }
  split; [now apply findTaskByHandle_alter|].
  repeat split.
Qed.

(** X19: [feed] by a task with a handle always returns [true], never adds or
    removes an entry, and asks the TWDT for the status of the caller exactly
    once; it forwards the ping ([esp_task_wdt_reset]) exactly when that
    status is [ESP_OK], and it never calls [esp_task_wdt_add]: feeding does
    not register.  When the take of the mutex times out the bookkeeping is
    skipped (the registry object is unchanged) but the TWDT part is done all
    the same. *)
Theorem feed_pings_only_participants env w :
  xTaskGetCurrentTaskHandle env ≠ NULL →
  let h := xTaskGetCurrentTaskHandle env in
  let w' := snd (feed env w) in
  fst (feed env w) = true ∧
  length (registeredTasks_ (self w')) = length (registeredTasks_ (self w)) ∧
  wdt_calls (trace w') =
    wdt_calls (trace w) ++
    WdtStatus h ::
    (if esp_task_wdt_status_result env h =? ESP_OK then [WdtReset h] else []) ∧
  (xSemaphoreTake_ok env = false → self w' = self w).
Proof.
  intros Hh h w'. subst w'. rewrite (feed_exact env w Hh). cbn zeta. fold h.
  destruct (xSemaphoreTake_ok env);
    [destruct (findTaskByHandle h (registeredTasks_ (self w))) as [[i t]|]|];
    cbn [fst snd self trace registeredTasks_ with_tasks];
    rewrite ?length_alter, !wdt_calls_app;
    destruct (esp_task_wdt_status_result env h =? ESP_OK); cbn; repeat split;
    discriminate.
Qed.

Lemma fed_fed now t : fed now (fed now t) = fed now t.
Proof. reflexivity. Qed.

(** X20: feeding twice at the same tick is feeding once: a second [feed]
    with the same answers of the platform leaves the registry object as the
    first one left it. *)
Theorem feed_idempotent env w :
  self (snd (feed env (snd (feed env w)))) = self (snd (feed env w)).
Proof.
  destruct (Z.eq_dec (xTaskGetCurrentTaskHandle env) NULL) as [Hh|Hh].
  { now rewrite !feed_no_identity. }
  destruct (xSemaphoreTake_ok env) eqn:Hl; [|now rewrite !feed_locked_out].
  destruct (findTaskByHandle (xTaskGetCurrentTaskHandle env) (registeredTasks_ (self w)))
    as [[i t]|] eqn:Hf.
  - pose proof (feed_present env w i t Hh Hl Hf) as Hs.
    assert (Hf' : findTaskByHandle (xTaskGetCurrentTaskHandle env)
                    (registeredTasks_ (self (snd (feed env w)))) =
                  Some (i, fed (xTaskGetTickCount env) t)).
    { rewrite Hs. cbn [registeredTasks_ with_tasks]. now apply findTaskByHandle_alter. }
    rewrite (feed_present env _ i _ Hh Hl Hf'), Hs.
    cbn [registeredTasks_ with_tasks]. unfold with_tasks. cbn. f_equal.
    rewrite list_alter_alter_eq. apply list_alter_ext; [|reflexivity].
    intros u _. reflexivity.
  - pose proof (feed_absent env w Hf) as Hs.
    rewrite feed_absent; [reflexivity|]. now rewrite Hs.
Qed.

Lemma updateFeedTime_cases env h w :
  updateFeedTime env h w =
    match findTaskByHandle h (registeredTasks_ (self w)) with
    | Some (i, _) =>
        (true,
         mkWorld (with_tasks (self w)
                    (alter (fed (xTaskGetTickCount env)) i (registeredTasks_ (self w))))
                 (trace w ++ [Store FRegisteredTasks]))
    | None => (false, w)
    end.
Proof.
  unfold updateFeedTime. run.
  destruct (findTaskByHandle _ _) as [[i t]|]; reflexivity.
Qed.

(** X21: [updateFeedTime] returns [true] exactly when the handle has an
    entry, and then does to the registry object what a [feed] by that task
    does inside its critical section; without an entry it returns [false] and
    changes nothing.  Unlike [feed] it neither asks for the mutex nor calls
    the TWDT: its only event is the store into the entry. *)
Theorem updateFeedTime_is_feed_bookkeeping env w :
  let h := xTaskGetCurrentTaskHandle env in
  let r := updateFeedTime env h w in
  (fst r = true ↔ is_Some (findTaskByHandle h (registeredTasks_ (self w)))) ∧
  (fst r = false → snd r = w) ∧
  (h ≠ NULL → xSemaphoreTake_ok env = true → self (snd r) = self (snd (feed env w))) ∧
  (fst r = true → trace (snd r) = trace w ++ [Store FRegisteredTasks]).
Proof.
  intros h r. subst r. rewrite updateFeedTime_cases.
  destruct (findTaskByHandle h (registeredTasks_ (self w))) as [[i t]|] eqn:Hf;
    cbn [fst snd self trace].
  - split; [split; eauto|]. split; [discriminate|]. split; [|reflexivity].
    intros Hh Hl. now rewrite (feed_present env w i t Hh Hl Hf).
  - split; [split; [discriminate | intros [x Hx]; discriminate]|].
    split; [reflexivity|]. split; [|discriminate].
    intros _ _. now rewrite (feed_absent env w Hf).
Qed.

(** ** [checkHealth] *)

Lemma scanned_fields now t :
  handle (scanned pf now t) = handle t ∧ name (scanned pf now t) = name t ∧
  lastFeedTime (scanned pf now t) = lastFeedTime t ∧
  feedIntervalMs (scanned pf now t) = feedIntervalMs t ∧
  isCritical (scanned pf now t) = isCritical t.
Proof. unfold scanned. destruct (stale pf now t); repeat split. Qed.

Lemma checkHealth_cases env w :
  let now := xTaskGetTickCount env in
  let k := length (List.filter (stale pf now) (registeredTasks_ (self w))) in
  checkHealth pf env w =
    if xSemaphoreTake_ok env then
      (k,
       mkWorld (with_tasks (self w) (scanned pf now <$> registeredTasks_ (self w)))
         (trace w ++ [SemTake WaitTicks10ms true] ++
          replicate k (Store FRegisteredTasks) ++ [SemGive]))
    else (0%nat, mkWorld (self w) (trace w ++ [SemTake WaitTicks10ms false])).
Proof.
  intros now k. subst now k. unfold checkHealth. run.
  destruct (xSemaphoreTake_ok env); cbn; [|reflexivity].
  pose proof (checkHealth_loop_spec pf (xTaskGetTickCount env) (registeredTasks_ (self w))
                [] 0%nat (mkWorld (self w) (trace w ++ [SemTake WaitTicks10ms true])) eq_refl)
    as (Hc & Hs & Ht).
  cbn [self trace] in *. rewrite Hc, Hs, Ht. cbn. now rewrite <- !app_assoc.
Qed.

Lemma wdt_calls_stores k f : wdt_calls (replicate k (Store f)) = [].
Proof. induction k as [|k IH]; [reflexivity | exact IH]. Qed.

Lemma takes_stores k f : takes (replicate k (Store f)) = 0%nat.
Proof. induction k as [|k IH]; [reflexivity | exact IH]. Qed.

Lemma length_filter_le {A} (p : A → bool) (l : list A) :
  (length (List.filter p l) ≤ length l)%nat.
Proof. induction l as [|a l IH]; cbn; [lia|]. destruct (p a); cbn; lia. Qed.

(** X22: [checkHealth] only counts: whatever the answers of the platform, it
    never calls the TWDT (no remediation), never adds, removes or reorders an
    entry, and changes no field of an entry other than [missedFeeds] (handle,
    name, [lastFeedTime], [feedIntervalMs] and criticality stay);
    [initialized_], [timeoutMs_] and [panicOnTimeout_] stay too.  What it
    returns never exceeds the number of entries, and it asks for the mutex
    exactly once. *)
Theorem checkHealth_only_counts env w :
  let w' := snd (checkHealth pf env w) in
  wdt_calls (trace w') = wdt_calls (trace w) ∧
  length (registeredTasks_ (self w')) = length (registeredTasks_ (self w)) ∧
  (∀ i t', registeredTasks_ (self w') !! i = Some t' →
     ∃ t, registeredTasks_ (self w) !! i = Some t ∧
          handle t' = handle t ∧ name t' = name t ∧ lastFeedTime t' = lastFeedTime t ∧
          feedIntervalMs t' = feedIntervalMs t ∧ isCritical t' = isCritical t) ∧
  initialized_ (self w') = initialized_ (self w) ∧
  timeoutMs_ (self w') = timeoutMs_ (self w) ∧
  panicOnTimeout_ (self w') = panicOnTimeout_ (self w) ∧
  (fst (checkHealth pf env w) ≤ length (registeredTasks_ (self w)))%nat ∧
  takes (trace w') = S (takes (trace w)).
Proof.
  intros w'. subst w'. rewrite checkHealth_cases. cbn zeta.
  destruct (xSemaphoreTake_ok env);
    cbn [fst snd self trace registeredTasks_ with_tasks initialized_ timeoutMs_
         panicOnTimeout_].
  - split.
    { rewrite !wdt_calls_app, wdt_calls_stores. cbn. now rewrite app_nil_r. }
    split; [apply length_fmap|].
    split.
    { intros i t' Hi. rewrite list_lookup_fmap in Hi.
      destruct (registeredTasks_ (self w) !! i) as [t|]; [|discriminate].
      cbn in Hi. injection Hi as <-. exists t. split; [reflexivity|].
      apply scanned_fields. }
    repeat split; [apply length_filter_le|].
    rewrite !takes_app, takes_stores. cbn. lia.
  - split; [rewrite wdt_calls_app; cbn; now rewrite app_nil_r|].
    split; [reflexivity|].
    split; [intros i t' Hi; exists t'; repeat split; exact Hi|].
    repeat split; [lia|].
    rewrite takes_app. cbn. lia.
Qed.

Lemma with_missedFeeds_same t : with_missedFeeds t (missedFeeds t) = t.
Proof. now destruct t. Qed.

Lemma u32_succ a : u32 (u32 a + 1) = u32 (a + 1).
Proof. unfold u32. apply Zplus_mod_idemp_l. Qed.

(** X23: scans add up.  After [k] health scans in a row that obtain the
    mutex at the same tick, with no feed in between, an entry that the tick
    finds stale has had its [missedFeeds] raised by [k] (modulo 2^32) and is
    otherwise as it was; an entry that is not stale is untouched. *)
Theorem rescan_accumulates env k w i t :
  xSemaphoreTake_ok env = true →
  registeredTasks_ (self w) !! i = Some t →
  is_u32 (missedFeeds t) →
  registeredTasks_ (self (rescan pf env k w)) !! i =
    Some (if stale pf (xTaskGetTickCount env) t
          then with_missedFeeds t (u32 (missedFeeds t + Z.of_nat k))
          else t).
Proof.
  intros Hl Hi Hm. induction k as [|k IH].
  - cbn. rewrite Z.add_0_r, (u32_small _ Hm), with_missedFeeds_same, Hi.
    now destruct (stale pf _ t).
  - change (rescan pf env (S k) w) with (snd (checkHealth pf env (rescan pf env k w))).
    destruct (checkHealth_locked pf env (rescan pf env k w) Hl) as [_ ->].
    cbn [registeredTasks_ with_tasks]. rewrite list_lookup_fmap, IH. cbn [fmap option_fmap option_map].
    f_equal. unfold scanned.
    destruct (stale pf (xTaskGetTickCount env) t) eqn:Hst; [|now rewrite Hst].
    replace (stale pf (xTaskGetTickCount env) (with_missedFeeds t _)) with true
      by (symmetry; exact Hst).
    unfold missed, with_missedFeeds. cbn. f_equal.
    rewrite u32_succ. f_equal. lia.
Qed.

(** X24: the staleness test survives the wrap of the tick counter: when the
    32-bit tick has wrapped once since the last feed (the current tick is
    numerically below [lastFeedTime]), the elapsed ticks are still counted
    right, as [now + 2^32 - lastFeedTime], and, products in range, the entry
    is stale exactly when those ticks in milliseconds exceed twice the
    interval. *)
Theorem stale_across_tick_wrap now t :
  0 ≤ now < lastFeedTime t → lastFeedTime t ≤ UINT32_MAX →
  is_u32 ((now + 4294967296 - lastFeedTime t) * portTICK_PERIOD_MS pf) →
  is_u32 (2 * feedIntervalMs t) →
  stale pf now t =
    (2 * feedIntervalMs t <? (now + 4294967296 - lastFeedTime t) * portTICK_PERIOD_MS pf).
Proof.
  intros Hnow Hlast Hel Hfi. unfold stale.
  assert (Hticks : u32 (now - lastFeedTime t) = now + 4294967296 - lastFeedTime t).
  { unfold u32. symmetry. apply (Z.mod_unique _ _ (-1)); unfold UINT32_MAX in *; lia. }
  rewrite Hticks, (u32_small _ Hel), Z.mul_comm, (u32_small _ Hfi). reflexivity.
Qed.

End MoreRegistryFacts.

(** ** The added theorems at the scenarios *)

Example w_two_entries : registeredTasks_ (self w_two) = [entryA; entryB].
Proof. reflexivity. Qed.

Example w_longname_entries :
  name <$> registeredTasks_ (self w_longname) = ["A"; "ProblematicTask"]%string.
Proof. reflexivity. Qed.

Lemma w_longname_reachable : reachable esp32 w_longname.
Proof.
  unfold w_longname. apply reachable_exec; [exact w_registered_reachable|].
  cbn. unfold is_u32, UINT32_MAX. lia.
Defined.

Lemma init_arms_once_witness :
  self (snd (init esp32 (answers taskA 0 true ESP_OK) 30 true constructed)) =
    mkWatchdog true 30000 true [].
Proof.
  destruct (init_arms_once esp32 (answers taskA 0 true ESP_OK) 30 true constructed)
    as (_ & Hs & _); [reflexivity | lia | left; reflexivity | exact Hs].
Defined.

Lemma init_failure_keeps_arguments_witness :
  fst (init esp32 (answers taskA 0 true ESP_FAIL) 30 false constructed) = false ∧
  fst (getTimeoutMs (snd (init esp32 (answers taskA 0 true ESP_FAIL) 30 false constructed)))
    = 30000.
Proof.
  destruct (init_failure_keeps_arguments esp32 (answers taskA 0 true ESP_FAIL) 30 false
              constructed) as (Hr & _ & _ & Hms & _);
    [reflexivity | lia | discriminate | discriminate | split; [exact Hr | exact Hms]].
Defined.

Lemma deinit_unregisters_all_witness :
  self (snd (deinit (answers taskA 50 true ESP_OK) w_two)) = mkWatchdog false 10000 false [] ∧
  wdt_calls (trace (snd (deinit (answers taskA 50 true ESP_OK) w_two))) =
    wdt_calls (trace w_two) ++ [WdtDelete taskA; WdtDelete taskB].
Proof.
  destruct (deinit_unregisters_all (answers taskA 50 true ESP_OK) w_two)
    as (_ & Hs & _ & Hc & _); [reflexivity | reflexivity | split; [exact Hs | exact Hc]].
Defined.

Lemma deinit_always_uninitializes_witness :
  initialized_ (self (snd (deinit (answers taskA 50 false ESP_OK) w_two))) = false ∧
  registeredTasks_ (self (snd (deinit (answers taskA 50 false ESP_OK) w_two))) =
    registeredTasks_ (self w_two).
Proof.
  destruct (deinit_always_uninitializes (answers taskA 50 false ESP_OK) w_two)
    as (_ & Hi & _ & _ & _ & Hkeep).
  split; [exact Hi | exact (proj1 (Hkeep eq_refl))].
Defined.

Lemma init_after_deinit_witness :
  timeoutMs_ (self (snd (init esp32 (answers taskA 60 true ESP_OK) 5 true
                           (snd (deinit (answers taskA 50 true ESP_OK) w_two))))) = 5000.
Proof.
  destruct (init_after_deinit esp32 (answers taskA 50 true ESP_OK)
              (answers taskA 60 true ESP_OK) 5 true w_two)
    as (_ & _ & Hms & _); [lia | left; reflexivity | exact Hms].
Defined.

Lemma register_requires_init_and_identity_witness :
  registerCurrentTask esp32 (answers taskA 0 true ESP_OK) "A" true 1000 constructed =
    (false, constructed).
Proof.
  exact (proj1 (register_requires_init_and_identity esp32 (answers taskA 0 true ESP_OK)
                  "A" true 1000 constructed (or_introl eq_refl))).
Defined.

Lemma register_refused_by_twdt_witness :
  fst (registerCurrentTask esp32 (refusing taskA) "A" true 1000 w_init) = false ∧
  trace (snd (registerCurrentTask esp32 (refusing taskA) "A" true 1000 w_init)) =
    trace w_init ++ [Wdt (WdtStatus taskA); Wdt (WdtAdd taskA)].
Proof.
  destruct (register_refused_by_twdt esp32 (refusing taskA) "A" true 1000 w_init)
    as (Hr & _ & Ht & _);
    [reflexivity | discriminate | reflexivity | split; [exact Hr | exact Ht]].
Defined.

Lemma register_appends_entry_witness :
  registeredTasks_ (self (snd (registerCurrentTask esp32 (answers taskB 40 true ESP_OK)
                                 "B" false 0 w_registered))) =
    registeredTasks_ (self w_registered) ++ [entryB].
Proof.
  destruct (register_appends_entry esp32 (answers taskB 40 true ESP_OK) "B" false 0
              w_registered) as (Hs & _); [reflexivity | reflexivity | exact Hs].
Defined.

Lemma register_then_checkHealth_witness :
  fst (checkHealth esp32 (answers taskA 40 true ESP_OK)
         (snd (registerCurrentTask esp32 (answers taskB 40 true ESP_OK) "B" false 0
                 w_registered))) =
  fst (checkHealth esp32 (answers taskA 40 true ESP_OK) w_registered).
Proof.
  destruct (register_then_checkHealth esp32 (answers taskB 40 true ESP_OK)
              (answers taskA 40 true ESP_OK) "B" false 0 w_registered)
    as (_ & Hc & _); [reflexivity | reflexivity | reflexivity | reflexivity | exact Hc].
Defined.

Lemma stored_name_is_truncated_witness :
  let env := answers taskB 40 true ESP_OK in
  fst (registerCurrentTask esp32 env "ProblematicTask1" false 3000 w_registered) = true ∧
  ∃ e,
    registeredTasks_
      (self (snd (registerCurrentTask esp32 env "ProblematicTask1" false 3000 w_registered)))
      !! 1%nat = Some e ∧
    String.length (name e) = 15%nat ∧
    String.prefix (name e) "ProblematicTask1" = true ∧
    name e ≠ "ProblematicTask1"%string.
Proof.
  intros env.
  destruct (stored_name_is_truncated esp32 env "ProblematicTask1" false 3000 w_registered)
    as (Hok & e & _ & Hlook & _ & Hpre & _ & Hlong);
    [vm_compute; lia | reflexivity | discriminate | reflexivity | reflexivity
    | reflexivity |].
  split; [exact Hok|]. exists e.
  destruct Hlong as [Hlen Hne]; [vm_compute; lia|].
  split; [exact Hlook|]. split; [exact Hlen|]. split; [exact Hpre | exact Hne].
Defined.

Lemma getTaskInfo_first_match_witness :
  self (snd (getTaskInfo esp32 (answers taskB 70 true ESP_OK) (Some "B"%string) w_two)) =
    self w_two ∧
  fst (getTaskInfo esp32 (answers taskB 70 false ESP_OK) (Some "B"%string) w_two) = None.
Proof.
  split.
  - exact (proj1 (getTaskInfo_first_match esp32 (answers taskB 70 true ESP_OK)
                    (Some "B"%string) w_two)).
  - destruct (getTaskInfo_first_match esp32 (answers taskB 70 false ESP_OK)
                (Some "B"%string) w_two) as (_ & _ & _ & Hbusy & _).
    exact (Hbusy eq_refl).
Defined.

Lemma register_then_getTaskInfo_witness :
  fst (getTaskInfo esp32 (answers taskA 70 true ESP_OK) (Some "B"%string)
         (snd (registerCurrentTask esp32 (answers taskB 40 true ESP_OK) "B" false 0
                 w_registered))) = Some entryB.
Proof.
  apply (register_then_getTaskInfo esp32 (answers taskB 40 true ESP_OK)
           (answers taskA 70 true ESP_OK) "B" false 0 w_registered);
    [reflexivity | reflexivity | vm_compute; lia | | reflexivity].
  change (registeredTasks_ (self w_registered)) with [entryA].
  apply Forall_singleton. reflexivity.
Defined.

Lemma reachable_entries_well_formed_witness :
  NoDup (handle <$> registeredTasks_ (self w_longname)).
Proof.
  exact (proj1 (reachable_entries_well_formed esp32 w_longname w_longname_reachable)).
Defined.

Lemma getTaskInfo_long_name_not_found_witness :
  fst (getTaskInfo esp32 (answers taskA 70 true ESP_OK) (Some "ProblematicTask1"%string)
         w_longname) = None.
Proof.
  apply (getTaskInfo_long_name_not_found esp32 (answers taskA 70 true ESP_OK)
           "ProblematicTask1" w_longname w_longname_reachable); vm_compute; lia.
Defined.

Lemma unregister_failures_witness :
  unregisterTaskByHandle (answers taskB 80 true ESP_OK) NULL None w_two = (false, w_two) ∧
  fst (unregisterTaskByHandle (refusing taskB) taskA None w_two) = false.
Proof.
  destruct (unregister_failures (answers taskB 80 true ESP_OK) NULL None w_two)
    as (Hnull & _).
  destruct (unregister_failures (refusing taskB) taskA None w_two) as (_ & Hfail & _).
  split; [exact (Hnull eq_refl)|].
  rewrite Hfail; [reflexivity | discriminate | discriminate | discriminate].
Defined.

Lemma unregister_removes_entry_witness :
  registeredTasks_ (self (snd (unregisterTaskByHandle (answers taskB 80 true ESP_OK)
                                 taskA None w_two))) = [entryB].
Proof.
  destruct (unregister_removes_entry (answers taskB 80 true ESP_OK) taskA None w_two)
    as (_ & _ & _ & Hdel & _); [discriminate | left; reflexivity | reflexivity |].
  apply (Hdel 0%nat entryA); [|reflexivity].
  vm_compute. apply NoDup_cons. split; [|apply NoDup_singleton].
  intros Hin. apply list_elem_of_singleton in Hin. discriminate.
Defined.

Lemma register_then_unregister_witness :
  self (snd (unregisterTaskByHandle (answers taskA 80 true ESP_OK) taskB None
               (snd (registerCurrentTask esp32 (answers taskB 40 true ESP_OK) "B" false 0
                       w_registered)))) = self w_registered.
Proof.
  destruct (register_then_unregister esp32 (answers taskB 40 true ESP_OK)
              (answers taskA 80 true ESP_OK) (answers taskA 90 true ESP_OK)
              "B" false 0 None w_registered) as (Hback & _);
    [reflexivity | reflexivity | left; reflexivity | reflexivity | exact Hback].
Defined.

Lemma feed_changes_only_own_entry_witness :
  registeredTasks_ (self (snd (feed (answers taskB 900 true ESP_OK) w_two))) !! 0%nat =
    Some entryA.
Proof.
  destruct (feed_changes_only_own_entry (answers taskB 900 true ESP_OK) w_two 1 entryB)
    as (_ & Hothers & _); [discriminate | reflexivity | reflexivity |].
  rewrite Hothers; [reflexivity | discriminate].
Defined.

Lemma feed_pings_only_participants_witness :
  wdt_calls (trace (snd (feed (refusing taskB) w_two))) =
    wdt_calls (trace w_two) ++ [WdtStatus taskB].
Proof.
  destruct (feed_pings_only_participants (refusing taskB) w_two) as (_ & _ & Hc & _);
    [discriminate | exact Hc].
Defined.

Lemma updateFeedTime_is_feed_bookkeeping_witness :
  self (snd (updateFeedTime (answers taskB 900 true ESP_OK) taskB w_two)) =
    self (snd (feed (answers taskB 900 true ESP_OK) w_two)).
Proof.
  destruct (updateFeedTime_is_feed_bookkeeping (answers taskB 900 true ESP_OK) w_two)
    as (_ & _ & Hsame & _).
  apply Hsame; [discriminate | reflexivity].
Defined.

Lemma checkHealth_only_counts_witness :
  wdt_calls (trace (snd (checkHealth esp32 (answers taskA 9000 true ESP_OK) w_two))) =
    wdt_calls (trace w_two).
Proof.
  exact (proj1 (checkHealth_only_counts esp32 (answers taskA 9000 true ESP_OK) w_two)).
Defined.

Lemma rescan_accumulates_witness :
  registeredTasks_ (self (rescan esp32 (answers taskB 2500 true ESP_OK) 3 w_two)) !! 0%nat =
    Some (with_missedFeeds entryA 3).
Proof.
  apply (rescan_accumulates esp32 (answers taskB 2500 true ESP_OK) 3 w_two 0 entryA);
    [reflexivity | reflexivity | unfold is_u32, UINT32_MAX; cbn; lia].
Defined.

Lemma stale_across_tick_wrap_witness :
  stale esp32 100 (mkTaskInfo taskA "A" 4294967000 1000 0 true) = false ∧
  stale esp32 3000 (mkTaskInfo taskA "A" 4294967000 1000 0 true) = true.
Proof.
  split.
  - rewrite (stale_across_tick_wrap esp32 100 (mkTaskInfo taskA "A" 4294967000 1000 0 true));
      [reflexivity | cbn; lia | cbn; unfold UINT32_MAX; lia
      | unfold is_u32, UINT32_MAX; cbn; lia | unfold is_u32, UINT32_MAX; cbn; lia].
  - rewrite (stale_across_tick_wrap esp32 3000 (mkTaskInfo taskA "A" 4294967000 1000 0 true));
      [reflexivity | cbn; lia | cbn; unfold UINT32_MAX; lia
      | unfold is_u32, UINT32_MAX; cbn; lia | unfold is_u32, UINT32_MAX; cbn; lia].
Defined.
